(** * A shallow embedding of the uxsim / searchsim agent core

    Modelled sources:
    - src/uxsim/simulators/components/relevance_classifiers.py
      ([CompositeRelevanceClassifier.is_relevant])
    - src/uxsim/simulation.py ([Simulation.run_with_persona], [Simulation.run])
    - src/searchsim/agent.py ([Memory.update_embeddings_and_importance],
      [Memory.retrieve_relevant], [Agent.plan], [Agent.act])

    Conventions.  Python exceptions are modelled with [option]: [None] is
    "an exception was raised here".  The external capabilities (LLM chat,
    embedding endpoint, policy, environment) are explicit function
    arguments, so that every behaviour they can show is covered.  Python
    floats are modelled as [Q]; [exp] is left as a parameter of the
    capabilities record since only its results matter. *)

From Stdlib Require Import List String Ascii ZArith QArith Bool Lia Permutation Sorting.Sorted.
Import ListNotations.
Open Scope string_scope.
Open Scope list_scope.
Set Warnings "-register-all".

(** ** JSON values as returned by [json.loads] *)
Module Json.

Inductive json : Type :=
| JNull
| JBool (b : bool)
| JNum (z : Z)
| JStr (s : string)
| JArr (l : list json)
| JObj (kvs : list (string * json)).

(** [dict.get(key)]: a dict built by [json.loads] keeps the LAST value of
    a duplicated key, so the lookup scans the reversed association list. *)
Definition obj_lookup (kvs : list (string * json)) (k : string) : option json :=
  match find (fun kv => String.eqb (fst kv) k) (rev kvs) with
  | Some (_, v) => Some v
  | None => None
  end.

(** [d.get(k, default)] on a value [d]; [None] when [d] is not a dict
    (an [AttributeError] in Python). *)
Definition get (d : json) (k : string) (default : json) : option json :=
  match d with
  | JObj kvs =>
      match obj_lookup kvs k with
      | Some v => Some v
      | None => Some default
      end
  | _ => None
  end.

(** [str.lower()] on ASCII text. *)
Definition lower_ascii (c : ascii) : ascii :=
  let n := nat_of_ascii c in
  if (65 <=? n)%nat && (n <=? 90)%nat then ascii_of_nat (n + 32)%nat else c.

Fixpoint lower (s : string) : string :=
  match s with
  | EmptyString => EmptyString
  | String c s' => String (lower_ascii c) (lower s')
  end.

(** [v.lower()]: only strings have it. *)
Definition json_lower (v : json) : option string :=
  match v with
  | JStr s => Some (lower s)
  | _ => None
  end.

End Json.

(** ** [CompositeRelevanceClassifier] *)
Module Composite.

(** Python [sum] of a list of booleans. *)
Definition py_sum (results : list bool) : Z :=
  fold_left (fun acc b => acc + Z.b2z b)%Z results 0%Z.

(** [sum(results) > len(results) / 2]: true division, so the right-hand
    side is a float (exact for these small values, hence [Q]). *)
Definition majority (results : list bool) : bool :=
  negb (Qle_bool (inject_Z (py_sum results))
                 (inject_Z (Z.of_nat (List.length results)) / 2)).

(** Python [all] and [any]. *)
Definition py_all (results : list bool) : bool := forallb (fun b => b) results.
Definition py_any (results : list bool) : bool := existsb (fun b => b) results.

(** The member classifiers are awaited in order; [None] is a member
    whose [is_relevant] raised, which aborts the loop. *)
Fixpoint collect (outcomes : list (option bool)) : option (list bool) :=
  match outcomes with
  | [] => Some []
  | None :: _ => None
  | Some b :: rest =>
      match collect rest with
      | Some bs => Some (b :: bs)
      | None => None
      end
  end.

Definition vote (voting_strategy : string) (results : list bool) : bool :=
  if String.eqb voting_strategy "majority" then majority results
  else if String.eqb voting_strategy "unanimous" then py_all results
  else if String.eqb voting_strategy "any" then py_any results
  else majority results.

(** [is_relevant]: an exception anywhere yields [False]. *)
Definition is_relevant (voting_strategy : string) (outcomes : list (option bool)) : bool :=
  match collect outcomes with
  | Some results => vote voting_strategy results
  | None => false
  end.

End Composite.

(** ** Action types shared by both packages ([ActionType] enum) *)
Inductive ActionType : Type :=
| SEARCH | CLICK | TYPE | SELECT | BACK | WAIT | STOP.

Definition ActionType_eqb (a b : ActionType) : bool :=
  match a, b with
  | SEARCH, SEARCH | CLICK, CLICK | TYPE, TYPE | SELECT, SELECT
  | BACK, BACK | WAIT, WAIT | STOP, STOP => true
  | _, _ => false
  end.

(** ** The simulation driver ([src/uxsim/simulation.py]) *)
Module Sim.

Record Observation : Type := mkObservation {
  url : string;
  error_message : option string
}.

(** Only what the loop reads of an action: its type and the "reason"
    entry of its parameters. *)
Record Action : Type := mkAction {
  action_type : ActionType;
  reason : option string
}.

(** The audit-trail entries: the [step_result] dict of a normal or
    stopping step, and the [error_result] dict of a failed step. *)
Inductive StepRecord : Type :=
| StepEntry (step : Z) (observation : Observation) (action : Action)
            (stop_reason : option string) (error : option string)
| ErrorEntry (step : Z).

Record Simulation : Type := mkSimulation {
  step_count : Z;
  results : list StepRecord
}.

(** [Simulation.__init__]: [step_count = 0], [results = []]. *)
Definition fresh : Simulation := mkSimulation 0 [].

(** The policy and the environment.  Both may be stateful, so each call is
    indexed by the step counter at which it happens; [None] is a raised
    exception. *)
Record World : Type := mkWorld {
  decide_action : Z -> Observation -> option Action;
  env_step : Z -> Action -> option Observation
}.

(** Why the [while] loop was left: the [break] after a stop action, the
    [break] in the [except] clause, the step budget in the loop condition,
    or [self.is_running] in the loop condition, cleared by
    [Simulation.stop()]. *)
Inductive Exit : Type := ExitStop | ExitError | ExitBudget | ExitHalted.

(** [if observation.error_message:] (an empty message is falsy). *)
Definition step_error (o : Observation) : option string :=
  match error_message o with
  | Some e => if String.eqb e "" then None else Some e
  | None => None
  end.

(** [action.parameters.get("reason", "Agent completed task")] *)
Definition stop_reason_of (a : Action) : string :=
  match reason a with Some r => r | None => "Agent completed task" end.

Definition append_record (s : Simulation) (r : StepRecord) : Simulation :=
  mkSimulation (step_count s) (results s ++ [r]).

(** The main loop: [while self.step_count < self.config.max_steps and
    self.is_running].  [run_with_persona] sets [is_running = True] before
    the loop; the public [Simulation.stop()] clears it, and may run at any
    [await] of the loop (or be called by the policy or the environment).
    [running k] is the value of [is_running] when the condition is tested
    with [step_count = k] (each test happens at a different count).  The
    fuel only bounds the recursion; it is [max_steps - step_count], so it
    never runs out before the loop condition fails. *)
Fixpoint loop (w : World) (running : Z -> bool) (fuel : nat) (max_steps : Z)
         (s : Simulation) (observation : Observation) : Simulation * Exit :=
  match fuel with
  | O => (s, ExitBudget)
  | S fuel' =>
      if (step_count s <? max_steps)%Z then
        if running (step_count s) then
        let n := step_count s in
        match decide_action w n observation with
        | None => (append_record s (ErrorEntry (n + 1)), ExitError)
        | Some a =>
            if ActionType_eqb (action_type a) STOP then
              (append_record s (StepEntry (n + 1) observation a
                                  (Some (stop_reason_of a)) None), ExitStop)
            else
              match env_step w n a with
              | None => (append_record s (ErrorEntry (n + 1)), ExitError)
              | Some observation' =>
                  let s' := append_record s
                              (StepEntry (n + 1) observation a None
                                         (step_error observation')) in
                  loop w running fuel' max_steps
                       (mkSimulation (step_count s' + 1) (results s'))
                       observation'
              end
        end
        else (s, ExitHalted)
      else (s, ExitBudget)
  end.

Record FinalResults : Type := mkFinal {
  steps : list StepRecord;
  total_steps : Z;
  status : string;
  completed : bool
}.

(** [run_with_persona]: the loop from the observation returned by
    [environment.reset()], then the [final_results] dict.  The exit cause
    is returned alongside, as a ghost value for the statements.  [running]
    records when [Simulation.stop()] took effect, if it did. *)
Definition run_with_persona_stoppable (w : World) (running : Z -> bool) (max_steps : Z)
           (s : Simulation) (reset_observation : Observation) : FinalResults * Exit :=
  let '(s', ex) := loop w running (Z.to_nat (max_steps - step_count s)) max_steps s
                        reset_observation in
  (mkFinal (results s') (step_count s')
           (if (step_count s' <? max_steps)%Z then "completed"
            else "max_steps_reached")
           (step_count s' <? max_steps)%Z, ex).

(** [run_with_persona] in a run during which [Simulation.stop()] is not
    called: [is_running] stays [True] at every test. *)
Definition run_with_persona (w : World) (max_steps : Z) (s : Simulation)
           (reset_observation : Observation) : FinalResults * Exit :=
  run_with_persona_stoppable w (fun _ => true) max_steps s reset_observation.

(** [run]: the same loop; its [final_results] has no "status" key, only
    "completed".  Modelled as the triple (steps, total_steps, completed). *)
Definition run (w : World) (running : Z -> bool) (max_steps : Z) (s : Simulation)
           (reset_observation : Observation) : list StepRecord * Z * bool :=
  let '(s', _) := loop w running (Z.to_nat (max_steps - step_count s)) max_steps s
                       reset_observation in
  (results s', step_count s', (step_count s' <? max_steps)%Z).

(** An audit entry of a step that neither stopped nor raised: a
    [step_result] without "stop_reason". *)
Definition plain_step (r : StepRecord) : Prop :=
  match r with StepEntry _ _ _ None _ => True | _ => False end.

(** The audit trail ends with a stop entry / an error entry. *)
Definition ends_with_stop (rs : list StepRecord) : Prop :=
  exists pre k o a r, rs = pre ++ [StepEntry k o a (Some r) None].

Definition ends_with_error (rs : list StepRecord) : Prop :=
  exists pre k, rs = pre ++ [ErrorEntry k].

End Sim.

(** ** The memory store of [src/searchsim/agent.py] *)
Module Mem.

(** [MemoryPiece]: the fields the store reads.  Its [importance] and
    [embedding] fields are written as a side effect of enrichment but never
    read by the code modelled here, so they are left out. *)
Record MemoryPiece : Type := mkPiece {
  content : string;
  memory_type : string;
  timestamp : Z
}.

(** Dataclass [__eq__] on the modelled fields. *)
Definition piece_eqb (a b : MemoryPiece) : bool :=
  String.eqb (content a) (content b) && String.eqb (memory_type a) (memory_type b)
  && (timestamp a =? timestamp b)%Z.

(** [Memory]: the entries, the two derived arrays ([None] before their
    first assignment, as in [__init__]) and the tick counter. *)
Record Memory : Type := mkMemory {
  memories : list MemoryPiece;
  embeddings : option (list (list Q));
  importance_scores : option (list Q);
  mem_timestamp : Z
}.

(** [Memory.__init__] with a given list of already appended entries. *)
Definition init (ms : list MemoryPiece) (now : Z) : Memory :=
  mkMemory ms None None now.

(** The external capabilities: the batch embedding call [embed_text]
    ([None]: it raised), the importance-scoring chat call returning the
    parsed ["score"] ([None]: the call, the parse or the key lookup
    raised), and [np.exp] on a tick difference. *)
Record Caps : Type := mkCaps {
  embed_text : list string -> option (list (list Q));
  importance_score : MemoryPiece -> option Q;
  exp_q : Z -> Q
}.

(** [update_importance()]: one score per entry of the suffix, 0.5 on a
    failed call. *)
Definition new_importance (c : Caps) (ms : list MemoryPiece) : list Q :=
  map (fun p => match importance_score c p with
                | Some s => s / 10
                | None => 1 # 2
                end) ms.

(** [update_embeddings_and_importance].  The first statement evaluates
    [len(self.embeddings)]; while [self.embeddings] is [None] this raises
    [TypeError], which the surrounding [except] logs: the store is left as
    it was.  The two coroutines run under [asyncio.gather]; an exception of
    either one aborts the commit. *)
Definition update_embeddings_and_importance (c : Caps) (m : Memory) : Memory :=
  match embeddings m with
  | None => m
  | Some e =>
      if Nat.eqb (List.length e) (List.length (memories m)) then m
      else
        let start_idx := List.length e in
        let memory_to_embed := skipn start_idx (memories m) in
        match memory_to_embed with
        | [] => m
        | _ =>
            match embed_text c (map content memory_to_embed) with
            | None => m
            | Some embeds =>
                (* [m.embedding = embeds[i]] raises [IndexError] when the
                   endpoint returned fewer vectors than inputs *)
                if Nat.ltb (List.length embeds) (List.length memory_to_embed) then m
                else
                  let memory_to_update :=
                    skipn (match importance_scores m with
                           | Some i => List.length i
                           | None => 0%nat
                           end) (memories m) in
                  let imps := new_importance c memory_to_update in
                  mkMemory (memories m)
                    (Some (if Nat.eqb (List.length e) 0 then embeds else (e ++ embeds)%list))
                    (Some (match importance_scores m with
                           | None => imps
                           | Some i => (i ++ imps)%list
                           end))
                    (mem_timestamp m)
            end
        end
  end.

(** ** Retrieval *)

(** A [retrieve_relevant] call: its arguments. *)
Record Request : Type := mkRequest {
  query : string;
  n : Z;
  include_recent : bool;
  kind_weight : option (list (string * Z))
}.

(** Python slicing [l[:n]], negative [n] included. *)
Definition py_take {A} (l : list A) (k : Z) : list A :=
  if (0 <=? k)%Z then firstn (Z.to_nat k) l
  else firstn (Z.to_nat (Z.of_nat (List.length l) + k)) l.

(** [kind_weight.get(kind, 1)] on a dict given as an association list. *)
Fixpoint kind_weight_get (kw : list (string * Z)) (kind : string) : Z :=
  match kw with
  | [] => 1
  | (k, w) :: rest => if String.eqb k kind then w else kind_weight_get rest kind
  end.

(** The default weights installed when [kind_weight is None]. *)
Definition default_kind_weight : list (string * Z) :=
  [("action", 10); ("plan", 10); ("thought", 10); ("reflection", 10)]%Z.

(** Entries are referred to by their position in [self.memories]: each
    position holds a distinct [MemoryPiece] object, so the position is the
    object's identity. *)
Definition piece_at (m : Memory) (i : nat) : MemoryPiece :=
  nth i (memories m) (mkPiece "" "" 0).

Definition positions (m : Memory) : list nat := seq 0 (List.length (memories m)).

Definition recent_observations (m : Memory) : list nat :=
  filter (fun i => String.eqb (memory_type (piece_at m i)) "observation"
                   && (mem_timestamp m - 3 <=? timestamp (piece_at m i))%Z)
         (positions m).

Definition recent_actions (m : Memory) : list nat :=
  filter (fun i => String.eqb (memory_type (piece_at m i)) "action"
                   && (mem_timestamp m - 5 <=? timestamp (piece_at m i))%Z)
         (positions m).

(** The seed list [results] built under [if include_recent]. *)
Definition seeds (m : Memory) : list nat := recent_observations m ++ recent_actions m.

(** [m in results]: identity, then dataclass equality. *)
Definition py_in (m : Memory) (i : nat) (results : list nat) : bool :=
  existsb (fun j => Nat.eqb i j || piece_eqb (piece_at m i) (piece_at m j)) results.

Fixpoint dot (u v : list Q) : Q :=
  match u, v with
  | x :: u', y :: v' => x * y + dot u' v'
  | _, _ => 0
  end.

(** [np.argsort(-scores)]: positions by decreasing score.  numpy leaves the
    order of equal scores to its sorting kind; ties are kept here in
    increasing position, the order the spec states. *)
Fixpoint insert_desc (scores : list Q) (i : nat) (l : list nat) : list nat :=
  match l with
  | [] => [i]
  | j :: l' =>
      if Qlt_le_dec (nth i scores 0) (nth j scores 0)
      then j :: insert_desc scores i l'
      else i :: l
  end.

Definition argsort_desc (scores : list Q) : list nat :=
  fold_right (insert_desc scores) [] (seq 0 (List.length scores)).

(** The body of the [try] block of [retrieve_relevant] once the seed list
    is built and the store has been enriched: [None] is an exception, which
    sends the call to its [except] clause. *)
Definition rank (c : Caps) (req : Request) (m m' : Memory) (results : list nat)
  : option (list nat) :=
  match embeddings m' with
  | None => Some (py_take results (n req))
  | Some e =>
      if Nat.eqb (List.length e) 0 then Some (py_take results (n req))
      else
        let smallest_size :=
          Nat.min (List.length e)
            (Nat.min (List.length (memories m'))
               (match importance_scores m' with
                | Some i => List.length i
                | None => List.length (memories m')
                end)) in
        if Nat.eqb smallest_size 0 then Some (py_take results (n req))
        else
          match embed_text c [query req] with
          | None | Some [] => None
          | Some (query_embedding :: _) =>
              let rows := firstn smallest_size e in
              (* [np.dot] raises on a dimension mismatch *)
              if negb (forallb (fun r => Nat.eqb (List.length r)
                                           (List.length query_embedding)) rows)
              then None
              else
                let prefix := firstn smallest_size (memories m') in
                let similarities := map (fun r => dot r query_embedding) rows in
                let recencies :=
                  map (fun p => exp_q c (timestamp p - mem_timestamp m')) prefix in
                let kw := match kind_weight req with
                          | Some kw => kw
                          | None => default_kind_weight
                          end in
                let kind_weights :=
                  map (fun p => inject_Z (kind_weight_get kw (memory_type p))) prefix in
                let importance :=
                  match importance_scores m' with
                  | Some i => firstn smallest_size i
                  | None => repeat 1 smallest_size
                  end in
                let scores :=
                  map (fun '(s, r, imp, w) => (s + r + imp) * w)
                      (combine (combine (combine similarities recencies) importance)
                               kind_weights) in
                let top_indices := py_take (argsort_desc scores) (n req) in
                let retrieved :=
                  filter (fun i => Nat.ltb i (List.length (memories m'))) top_indices in
                let all_memories :=
                  results ++ filter (fun i => negb (py_in m' i results)) retrieved in
                Some (py_take all_memories (n req))
          end
  end.

(** The [try] block of [retrieve_relevant]. *)
Definition retrieve_core (c : Caps) (req : Request) (m : Memory) : option (list nat) :=
  match memories m with
  | [] => Some []
  | _ =>
      let results := if include_recent req then seeds m else [] in
      rank c req m (update_embeddings_and_importance c m) results
  end.

(** The [except] clause: [self.memories[-5:]]. *)
Definition fallback (m : Memory) : list nat :=
  skipn (List.length (memories m) - 5) (positions m).

(** [retrieve_relevant]: the new store and the positions of the returned
    entries. *)
Definition retrieve_relevant (c : Caps) (req : Request) (m : Memory) : Memory * list nat :=
  (match memories m with
   | [] => m
   | _ => update_embeddings_and_importance c m
   end,
   match retrieve_core c req m with
   | Some r => r
   | None => fallback m
   end).

End Mem.

(** ** [Agent.plan] *)
Module Planning.
Import Json Mem.

(** The three plan fields of the agent ([None] until first assigned);
    they hold whatever JSON value the reasoning call put under the keys. *)
Record AgentPlan : Type := mkPlan {
  current_plan : option json;
  current_plan_rationale : option json;
  next_step : option json
}.

Definition initial_plan : AgentPlan := mkPlan None None None.

(** [self.current_plan or '']: a falsy plan gives the empty string.  Only
    string plans are rendered; a plan of another JSON type would be
    rendered by Python's [str], which the query text here does not follow
    (the query only feeds the embedding capability). *)
Definition plan_text (p : option json) : string :=
  match p with Some (JStr s) => s | _ => "" end.

Definition plan_kind_weight : list (string * Z) :=
  [("action", 10); ("plan", 10); ("thought", 10); ("reflection", 10)]%Z.

(** The retrieval [plan()] performs. *)
Definition plan_request (intent : string) (st : AgentPlan) : Request :=
  mkRequest (intent ++ " " ++ plan_text (current_plan st))%string 20 true
            (Some plan_kind_weight).

(** [key in plan_data]: a dict tests its keys, a list its elements, a
    string its substrings; other values raise [TypeError]. *)
Definition py_contains (v : json) (key : string) : option bool :=
  match v with
  | JObj kvs => Some (existsb (fun kv => String.eqb (fst kv) key) kvs)
  | JArr l => Some (existsb (fun x => match x with
                                      | JStr s => String.eqb s key
                                      | _ => false
                                      end) l)
  | JStr s => Some (match String.index 0 key s with Some _ => true | None => false end)
  | _ => None
  end.

(** [all(key in plan_data for key in [...])], short-circuiting. *)
Fixpoint all_keys (v : json) (keys : list string) : option bool :=
  match keys with
  | [] => Some true
  | k :: ks =>
      match py_contains v k with
      | None => None
      | Some false => Some false
      | Some true => all_keys v ks
      end
  end.

Definition max_retries : nat := 3.

Definition fallback_plan : AgentPlan :=
  mkPlan (Some (JStr "Continue with current approach"))
         (Some (JStr "Using fallback plan due to LLM errors"))
         (Some (JStr "Try the next logical action")).

(** The [except] clause of one attempt. *)
Definition on_exception (attempt : nat) (st : AgentPlan) : AgentPlan :=
  if Nat.eqb attempt (max_retries - 1) then fallback_plan else st.

(** [for attempt in range(max_retries)].  [response attempt] is the parsed
    answer of the reasoning call at that attempt; [None] when [async_chat]
    or [json.loads] raised. *)
Fixpoint plan_loop (response : nat -> option json) (remaining attempt : nat)
         (st : AgentPlan) : AgentPlan :=
  match remaining with
  | O => st
  | S remaining' =>
      match response attempt with
      | None => plan_loop response remaining' (S attempt) (on_exception attempt st)
      | Some plan_data =>
          match all_keys plan_data ["plan"; "rationale"; "next_step"] with
          | None => plan_loop response remaining' (S attempt) (on_exception attempt st)
          | Some false =>
              (* "Invalid plan response": logged, next attempt *)
              plan_loop response remaining' (S attempt) st
          | Some true =>
              match get plan_data "plan" (JStr ""),
                    get plan_data "rationale" (JStr ""),
                    get plan_data "next_step" (JStr "") with
              | Some p, Some r, Some ns => mkPlan (Some p) (Some r) (Some ns)
              | _, _, _ =>
                  (* [.get] on a list or a string: [AttributeError] *)
                  plan_loop response remaining' (S attempt) (on_exception attempt st)
              end
          end
      end
  end.

(** [plan()]: the retrieval, then the retry loop.  The plan and thought
    entries it appends afterwards are not modelled. *)
Definition plan (c : Caps) (intent : string) (m : Memory) (st : AgentPlan)
           (response : nat -> option json) : Memory * AgentPlan :=
  let '(m', _) := retrieve_relevant c (plan_request intent st) m in
  (m', plan_loop response max_retries 0 st).

End Planning.

(** ** [Agent.act]: mapping the action-selection response *)
Module Acting.
Import Json Mem.

(** The [Action] subclasses [act] builds; their fields hold whatever
    JSON value [.get] returned. *)
Inductive AgentAction : Type :=
| SearchAction (query : json)
| ClickAction (element_id : json)
| TypeAction (element_id text : json)
| SelectAction (element_id value : json)
| StopAction (reason : json).

(** The [type] each subclass sets in [__post_init__]. *)
Definition type_of (a : AgentAction) : ActionType :=
  match a with
  | SearchAction _ => SEARCH
  | ClickAction _ => CLICK
  | TypeAction _ _ => TYPE
  | SelectAction _ _ => SELECT
  | StopAction _ => STOP
  end.

(** [action_type_mapping.get(s)]. *)
Definition action_type_mapping (s : string) : option ActionType :=
  if String.eqb s "search" then Some SEARCH
  else if String.eqb s "click" then Some CLICK
  else if String.eqb s "type" then Some TYPE
  else if String.eqb s "select" then Some SELECT
  else if String.eqb s "back" then Some BACK
  else if String.eqb s "wait" then Some WAIT
  else if String.eqb s "stop" then Some STOP
  else None.

Definition default_stop_reason : json := JStr "Agent decided to stop".

(** One iteration of [for action_dict in ...]: [None] when it raises. *)
Definition map_item (action_dict : json) : option AgentAction :=
  match get action_dict "type" (JStr "") with
  | None => None
  | Some t =>
      match json_lower t with
      | None => None
      | Some action_type_str =>
          let action_type :=
            match action_type_mapping action_type_str with
            | Some ty => ty
            | None => STOP
            end in
          match action_type with
          | SEARCH =>
              match get action_dict "text" (JStr "") with
              | Some d => option_map SearchAction (get action_dict "query" d)
              | None => None
              end
          | CLICK =>
              match get action_dict "selector" (JStr "") with
              | Some d => option_map ClickAction (get action_dict "element_id" d)
              | None => None
              end
          | TYPE =>
              match get action_dict "selector" (JStr ""), get action_dict "value" (JStr "") with
              | Some d1, Some d2 =>
                  match get action_dict "element_id" d1, get action_dict "text" d2 with
                  | Some e, Some x => Some (TypeAction e x)
                  | _, _ => None
                  end
              | _, _ => None
              end
          | SELECT =>
              match get action_dict "selector" (JStr "") with
              | Some d =>
                  match get action_dict "element_id" d, get action_dict "value" (JStr "") with
                  | Some e, Some v => Some (SelectAction e v)
                  | _, _ => None
                  end
              | None => None
              end
          | _ =>
              match get action_dict "description" default_stop_reason with
              | Some d => option_map StopAction (get action_dict "reason" d)
              | None => None
              end
          end
      end
  end.

(** Iterating a JSON value with [for]: a list gives its elements, a string
    its characters, a dict its keys; other values raise. *)
Definition iter_items (v : json) : option (list json) :=
  match v with
  | JArr l => Some l
  | JStr s => Some (map (fun ch => JStr (String ch EmptyString)) (list_ascii_of_string s))
  | JObj kvs => Some (map (fun kv => JStr (fst kv)) kvs)
  | _ => None
  end.

Fixpoint map_items (items : list json) : option (list AgentAction) :=
  match items with
  | [] => Some []
  | d :: rest =>
      match map_item d with
      | None => None
      | Some a =>
          match map_items rest with
          | Some l => Some (a :: l)
          | None => None
          end
      end
  end.

(** From the parsed response to the returned list: any exception makes
    [act] return [[]].  [response] is [None] when [async_chat] or
    [json.loads] raised.  The [action] entries appended to memory are not
    modelled. *)
Definition actions_of_response (response : option json) : list AgentAction :=
  match response with
  | None => []
  | Some action_data =>
      match get action_data "actions" (JArr []) with
      | None => []
      | Some v =>
          match iter_items v with
          | None => []
          | Some items => match map_items items with Some l => l | None => [] end
          end
      end
  end.

Definition act_kind_weight : list (string * Z) :=
  [("observation", 0); ("action", 10); ("thought", 10)]%Z.

Definition act_request (intent : string) (next_step : string) : Request :=
  mkRequest (next_step ++ " " ++ intent)%string 15 true (Some act_kind_weight).

(** [act()]: the retrieval, then the action-selection call. *)
Definition act (c : Caps) (intent next_step : string) (m : Memory)
           (response : option json) : Memory * list AgentAction :=
  let '(m', _) := retrieve_relevant c (act_request intent next_step) m in
  (m', actions_of_response response).

(** The type text [act] reads from an item: [None] when it is not a
    string (its [.lower()] raises). *)
Definition type_string (kvs : list (string * json)) : option string :=
  match obj_lookup kvs "type" with
  | None => Some ""
  | Some (JStr s) => Some s
  | Some _ => None
  end.

End Acting.

(** ** [Memory.add_memory] *)
Module MemOps.
Import Mem.

(** [memory.timestamp = self.timestamp; self.memories.append(memory)]:
    the entry is stamped with the store's current tick; the derived arrays
    are not touched. *)
Definition add_memory (m : Memory) (p : MemoryPiece) : Memory :=
  mkMemory (memories m ++ [mkPiece (content p) (memory_type p) (mem_timestamp m)])
           (embeddings m) (importance_scores m) (mem_timestamp m).

(** The invariant the store is meant to keep: the two derived arrays are
    both unset, or both set with equal lengths not above the number of
    entries. *)
Definition arrays_in_step (m : Memory) : Prop :=
  match embeddings m, importance_scores m with
  | None, None => True
  | Some e, Some i => List.length e = List.length i
                      /\ (List.length e <= List.length (memories m))%nat
  | _, _ => False
  end.

(** The embedding endpoint answers one vector per input text. *)
Definition embed_aligned (c : Caps) : Prop :=
  forall xs v, embed_text c xs = Some v -> List.length v = List.length xs.

End MemOps.

(** ** [KeywordRelevanceClassifier] ([relevance_classifiers.py]) *)
Module Keyword.
Import Json.

(** Characters [str.split()] treats as whitespace, on code points below
    128 (the text model is ASCII). *)
Definition is_py_space (c : ascii) : bool :=
  let n := nat_of_ascii c in
  ((9 <=? n) && (n <=? 13))%nat || ((28 <=? n) && (n <=? 32))%nat.

(** [str.split()] with no separator: maximal runs of non-whitespace. *)
Fixpoint split_aux (s cur : string) : list string :=
  match s with
  | EmptyString => if String.eqb cur "" then [] else [cur]
  | String c s' =>
      if is_py_space c then
        if String.eqb cur "" then split_aux s' "" else cur :: split_aux s' ""
      else split_aux s' (cur ++ String c EmptyString)%string
  end.

Definition split_words (s : string) : list string := split_aux s "".

(** [word in page_content]: substring test. *)
Definition occurs_in (w page : string) : bool :=
  match String.index 0 w page with Some _ => true | None => false end.

(** [is_relevant]: [set(intent.lower().split())], the count of its words
    occurring in the lower-cased page, the ratio (0 for no words), compared
    with the threshold by [>=].  Nothing in the body can raise on strings. *)
Definition keyword_is_relevant (threshold : Q) (page_content intent : string) : bool :=
  let intent_words := nodup string_dec (split_words (lower intent)) in
  let page := lower page_content in
  let matches := List.length (filter (fun w => occurs_in w page) intent_words) in
  let relevance_score :=
    match intent_words with
    | [] => 0
    | _ => inject_Z (Z.of_nat matches) / inject_Z (Z.of_nat (List.length intent_words))
    end in
  Qle_bool threshold relevance_score.

(** [KeywordRelevanceClassifier()]: the default threshold 0.5. *)
Definition default_threshold : Q := 1 # 2.

End Keyword.

(** ** Concrete inputs used by the statements below *)
(** The member classifiers a [CompositeRelevanceClassifier] can hold.
    [TrecQrelsClassifier] (whose qrels loading is a no-op) and
    [LLMRelevanceClassifier] both answer with a fresh
    [KeywordRelevanceClassifier()], i.e. at the default threshold; none of
    the three raises. *)
Module Classifiers.
Import Keyword.

Inductive Member : Type :=
| KeywordMember (threshold : Q)
| TrecQrelsMember
| LLMMember.

Definition member_is_relevant (c : Member) (page_content intent : string) : bool :=
  match c with
  | KeywordMember t => keyword_is_relevant t page_content intent
  | TrecQrelsMember => keyword_is_relevant default_threshold page_content intent
  | LLMMember => keyword_is_relevant default_threshold page_content intent
  end.

(** A composite's member outcomes, in the order they are awaited. *)
Definition member_outcomes (cs : list Member) (page_content intent : string)
  : list (option bool) :=
  map (fun c => Some (member_is_relevant c page_content intent)) cs.

End Classifiers.

Module SimOps.
Import Sim.

(** The ["step"] value of an audit entry. *)
Definition record_step (r : StepRecord) : Z :=
  match r with StepEntry k _ _ _ _ => k | ErrorEntry k => k end.

(** The number of audit entries the exit itself appends: one for a stop
    or an error, none when the loop condition fails. *)
Definition exit_entries (ex : Exit) : Z :=
  match ex with ExitStop | ExitError => 1 | ExitBudget | ExitHalted => 0 end%Z.

(** How observations thread through new audit entries, starting from the
    observation [o] the loop was entered with: a step entry records the
    observation the decision was made on; its ["error"] is the error
    message of the observation the environment returned, which the next
    entry records; an error entry is the last one. *)
Fixpoint threaded (o : Observation) (l : list StepRecord) : Prop :=
  match l with
  | [] => True
  | StepEntry _ o1 _ _ e :: rest =>
      o1 = o /\ (rest = [] \/ exists o', e = step_error o' /\ threaded o' rest)
  | ErrorEntry _ :: rest => rest = []
  end.

End SimOps.

Module Fixtures.
Import Json Sim Mem Planning Acting.

Definition start_page : Observation := mkObservation "https://shop.example" None.

(** A policy that raises on its first decision. *)
Definition failing_world : World := mkWorld (fun _ _ => None) (fun _ _ => None).

(** A policy that stops on its first decision. *)
Definition stopping_world : World :=
  mkWorld (fun _ _ => Some (mkAction STOP None)) (fun _ _ => None).

(** A policy that always clicks, on a site that answers without error. *)
Definition clicking_world : World :=
  mkWorld (fun _ _ => Some (mkAction CLICK None)) (fun _ _ => Some start_page).

(** [Simulation.stop()] taking effect after two steps: [is_running] is
    [False] when the condition is tested with [step_count = 2]. *)
Definition stopped_after_two (k : Z) : bool := (k <? 2)%Z.

(** A policy that always clicks, on a site whose every page reports a
    server error. *)
Definition erroring_site_world : World :=
  mkWorld (fun _ _ => Some (mkAction CLICK None))
          (fun _ _ => Some (mkObservation "https://shop.example" (Some "HTTP 500"))).

Definition piece (kind : string) (t : Z) : MemoryPiece := mkPiece kind kind t.

(** Embedding capability that raises on every call. *)
Definition caps_embed_down : Caps := mkCaps (fun _ => None) (fun _ => None) (fun _ => 1).

(** Embedding capability that answers, with one-dimensional vectors. *)
Definition caps_up : Caps :=
  mkCaps (fun xs => Some (map (fun _ => [1]) xs)) (fun _ => Some 5) (fun _ => 1).

(** An enriched store of six entries at the current tick 10: one
    observation, then five plans. *)
Definition store6 : Memory :=
  mkMemory (piece "observation" 10 :: repeat (piece "plan" 10) 5)
           (Some (repeat [1] 6)) (Some (repeat (1 # 2) 6)) 10.

Definition req10 : Request := mkRequest "q" 10 true None.

(** The store of the spec's degradation example: four observations at
    ticks 0 to 3, current tick 3, never enriched. *)
Definition store4 : Memory :=
  init [piece "observation" 0; piece "observation" 1; piece "observation" 2;
        piece "observation" 3] 3.

Definition req1 : Request := mkRequest "q" 1 true None.

Definition store2 : Memory :=
  mkMemory [piece "plan" 0; piece "thought" 0] (Some [[1]; [1]])
           (Some [1 # 2; 1 # 2]) 0.

(** A store of three entries of which only the first is enriched. *)
Definition store3_partial : Memory :=
  mkMemory [piece "plan" 0; piece "thought" 0; piece "observation" 0] (Some [[1]])
           (Some [1 # 2]) 0.

(** A store holding one observation made ten ticks ago, enriched. *)
Definition old_observation_store : Memory :=
  mkMemory [piece "observation" 0] (Some [[1]]) (Some [1 # 2]) 10.

(** A well-formed answer that lacks "rationale" and "next_step". *)
Definition incomplete_response : json := JObj [("plan", JStr "Search for kettles")].

Definition click_response : json :=
  JObj [("actions", JArr [JObj [("type", JStr "click"); ("element_id", JStr "x")]])].

(** An item with an unrecognized type and a description, as the action
    prompt asks items to carry. *)
Definition described_unknown_item : json :=
  JObj [("type", JStr "scroll"); ("description", JStr "Scroll to the reviews")].

End Fixtures.

(** * Properties *)

Module CompositeFacts.
Import Composite.

Lemma collect_map_Some (votes : list bool) : collect (map Some votes) = Some votes.
Proof. induction votes as [|b votes IH]; simpl; [reflexivity|now rewrite IH]. Qed.

Lemma py_sum_acc (votes : list bool) (acc : Z) :
  fold_left (fun acc b => acc + Z.b2z b)%Z votes acc
  = (acc + Z.of_nat (List.length (filter (fun b => b) votes)))%Z.
Proof.
  revert acc; induction votes as [|b votes IH]; intros acc; simpl.
  - lia.
  - rewrite IH; destruct b; simpl; lia.
Qed.

Lemma py_sum_count (votes : list bool) :
  py_sum votes = Z.of_nat (List.length (filter (fun b => b) votes)).
Proof. unfold py_sum; rewrite py_sum_acc; lia. Qed.

Lemma majority_iff (votes : list bool) :
  majority votes = true <->
  (2 * Z.of_nat (List.length (filter (fun b => b) votes)) > Z.of_nat (List.length votes))%Z.
Proof.
  unfold majority; rewrite py_sum_count.
  set (t := Z.of_nat (List.length (filter (fun b => b) votes))).
  set (k := Z.of_nat (List.length votes)).
  rewrite negb_true_iff.
  split.
  - intros H. destruct (Z_le_gt_dec (2 * t) k) as [Hle|Hgt]; [|exact Hgt].
    exfalso. assert (Hq : Qle_bool (inject_Z t) (inject_Z k / 2) = true).
    { apply Qle_bool_iff. unfold Qle, Qdiv, Qmult, Qinv; simpl. lia. }
    congruence.
  - intros Hgt. destruct (Qle_bool (inject_Z t) (inject_Z k / 2)) eqn:E; [|reflexivity].
    exfalso. apply Qle_bool_iff in E. unfold Qle, Qdiv, Qmult, Qinv in E; simpl in E. lia.
Qed.

Lemma py_all_iff (votes : list bool) :
  py_all votes = true <-> (forall b, In b votes -> b = true).
Proof. unfold py_all; rewrite forallb_forall; tauto. Qed.

Lemma py_any_iff (votes : list bool) : py_any votes = true <-> In true votes.
Proof.
  unfold py_any; rewrite existsb_exists; split.
  - intros [b [Hin Hb]]; now subst.
  - intros Hin; now exists true.
Qed.

End CompositeFacts.

Module CompositeClaims.
Import Composite CompositeFacts.

(** C9: when every member classifier returns a vote, [is_relevant] under
    "majority" is true iff strictly more than half of the k votes are true,
    under "unanimous" iff all k votes are true, and under "any" iff at least
    one vote is true. *)
Theorem composite_voting_law (votes : list bool) :
  (is_relevant "majority" (map Some votes) = true <->
     (2 * Z.of_nat (List.length (filter (fun b => b) votes))
        > Z.of_nat (List.length votes))%Z)
  /\ (is_relevant "unanimous" (map Some votes) = true <->
        (forall b, In b votes -> b = true))
  /\ (is_relevant "any" (map Some votes) = true <-> In true votes).
Proof.
  unfold is_relevant; rewrite collect_map_Some; unfold vote; simpl.
  split; [apply majority_iff|split; [apply py_all_iff|apply py_any_iff]].
Qed.

(** C10: with an empty list of member classifiers, "unanimous" answers
    true and "majority" and "any" answer false; a voting strategy other
    than the three named ones decides as "majority" does, on every list of
    member outcomes. *)
Theorem composite_empty_and_unknown_strategy (voting_strategy : string)
  (H1 : voting_strategy <> "majority") (H2 : voting_strategy <> "unanimous")
  (H3 : voting_strategy <> "any") :
  is_relevant "unanimous" [] = true
  /\ is_relevant "majority" [] = false
  /\ is_relevant "any" [] = false
  /\ is_relevant voting_strategy [] = false
  /\ (forall outcomes, is_relevant voting_strategy outcomes
                       = is_relevant "majority" outcomes).
Proof.
  assert (Hv : forall results, vote voting_strategy results = majority results).
  { intros results; unfold vote.
    apply String.eqb_neq in H1, H2, H3. now rewrite H1, H2, H3. }
  repeat split; try reflexivity.
  - unfold is_relevant; simpl; rewrite Hv; reflexivity.
  - intros outcomes; unfold is_relevant.
    destruct (collect outcomes); [now rewrite Hv|reflexivity].
Qed.

Lemma composite_empty_and_unknown_strategy_witness :
  is_relevant "unanimous" [] = true /\ is_relevant "weighted" [Some true] = true.
Proof.
  destruct (composite_empty_and_unknown_strategy "weighted") as [H _];
    try discriminate.
  split; [exact H|reflexivity].
Defined.

End CompositeClaims.

Module SimFacts.
Import Sim.

(** What the loop leaves behind, by exit cause, as long as the fuel covers
    the remaining budget. *)
Lemma loop_exit (w : World) (running : Z -> bool) (fuel : nat) (max_steps : Z)
      (s : Simulation) (obs : Observation) :
  (max_steps - step_count s <= Z.of_nat fuel)%Z ->
  let '(s', ex) := loop w running fuel max_steps s obs in
  match ex with
  | ExitBudget => (max_steps <= step_count s')%Z
  | ExitStop => (step_count s' < max_steps)%Z /\ ends_with_stop (results s')
  | ExitError => (step_count s' < max_steps)%Z /\ ends_with_error (results s')
  | ExitHalted => (step_count s' < max_steps)%Z
                  /\ exists new, results s' = (results s ++ new)%list
                                 /\ Forall plain_step new
  end.
Proof.
  revert s obs; induction fuel as [|fuel IH]; intros s obs Hf; simpl.
  - lia.
  - destruct (step_count s <? max_steps)%Z eqn:Hlt; [|apply Z.ltb_ge in Hlt; exact Hlt].
    apply Z.ltb_lt in Hlt.
    destruct (running (step_count s)).
    2:{ split; [exact Hlt|]. exists []. now rewrite app_nil_r. }
    destruct (decide_action w (step_count s) obs) as [a|].
    + destruct (ActionType_eqb (action_type a) STOP).
      * split; [exact Hlt|]. unfold append_record; simpl.
        do 5 eexists; reflexivity.
      * destruct (env_step w (step_count s) a) as [o'|].
        -- specialize (IH (mkSimulation (step_count s + 1)
                             (results s ++ [StepEntry (step_count s + 1) obs a None
                                              (step_error o')])) o').
           simpl in IH. specialize (IH ltac:(lia)).
           destruct (loop w running fuel max_steps _ o') as [s' ex].
           destruct ex; try exact IH.
           destruct IH as [Hlt' (new & Hres & Hall)]. split; [exact Hlt'|].
           exists (StepEntry (step_count s + 1) obs a None (step_error o') :: new).
           split; [rewrite Hres; now rewrite <- app_assoc|].
           constructor; [exact I|exact Hall].
        -- split; [exact Hlt|]. unfold append_record; simpl. do 2 eexists; reflexivity.
    + split; [exact Hlt|]. unfold append_record; simpl. do 2 eexists; reflexivity.
Qed.

Lemma to_nat_fuel (x : Z) : (x <= Z.of_nat (Z.to_nat x))%Z.
Proof. lia. Qed.

End SimFacts.

Module SimClaims.
Import Sim SimFacts Fixtures.

(** C4 (counterexample): a run whose first step raises ends in the
    [except] clause, yet its status is "completed", the same status as a
    run the agent stopped, and as a run cut short by [Simulation.stop()]
    (two plain steps, no stop entry, no error entry); no status value
    reports the error. *)
Lemma run_error_reported_as_completed :
  snd (run_with_persona failing_world 5 fresh start_page) = ExitError
  /\ status (fst (run_with_persona failing_world 5 fresh start_page)) = "completed"
  /\ snd (run_with_persona stopping_world 5 fresh start_page) = ExitStop
  /\ status (fst (run_with_persona stopping_world 5 fresh start_page)) = "completed"
  /\ snd (run_with_persona_stoppable clicking_world stopped_after_two 5 fresh start_page)
     = ExitHalted
  /\ status (fst (run_with_persona_stoppable clicking_world stopped_after_two 5 fresh
                   start_page)) = "completed"
  /\ Forall plain_step (steps (fst (run_with_persona_stoppable clicking_world
                                      stopped_after_two 5 fresh start_page)))
  /\ List.length (steps (fst (run_with_persona_stoppable clicking_world
                                stopped_after_two 5 fresh start_page))) = 2%nat.
Proof. vm_compute. repeat split; repeat constructor. Qed.

(** C4 (amended): the status of [run_with_persona] is "max_steps_reached"
    exactly when the loop ended on its step budget and "completed" exactly
    when it ended otherwise: on a stop action, on a per-step exception, or
    because [Simulation.stop()] cleared [is_running].  The three are told
    apart only by the audit entries: a stop action leaves a last stop entry
    carrying a stop reason, an exception a last error entry, and a
    [stop()] only plain step entries of this run. *)
Theorem run_status_by_exit (w : World) (running : Z -> bool) (max_steps : Z)
        (s : Simulation) (reset_observation : Observation) :
  let '(fr, ex) := run_with_persona_stoppable w running max_steps s reset_observation in
  (status fr = "max_steps_reached" <-> ex = ExitBudget)
  /\ (status fr = "completed" <-> ex = ExitStop \/ ex = ExitError \/ ex = ExitHalted)
  /\ (ex = ExitStop -> ends_with_stop (steps fr))
  /\ (ex = ExitError -> ends_with_error (steps fr))
  /\ (ex = ExitHalted -> exists new, steps fr = (results s ++ new)%list
                                    /\ Forall plain_step new).
Proof.
  unfold run_with_persona_stoppable.
  pose proof (loop_exit w running (Z.to_nat (max_steps - step_count s)) max_steps s
                reset_observation (to_nat_fuel _)) as H.
  destruct (loop w running (Z.to_nat (max_steps - step_count s)) max_steps s
              reset_observation) as [s' ex].
  simpl.
  destruct ex.
  - destruct H as [Hlt Hend].
    apply Z.ltb_lt in Hlt; rewrite Hlt.
    repeat split; try discriminate; auto.
  - destruct H as [Hlt Hend].
    apply Z.ltb_lt in Hlt; rewrite Hlt.
    repeat split; try discriminate; auto.
  - apply Z.ltb_ge in H; rewrite H.
    repeat split; try discriminate; intros [E|[E|E]]; discriminate.
  - destruct H as [Hlt Hnew].
    apply Z.ltb_lt in Hlt; rewrite Hlt.
    repeat split; try discriminate; auto.
Qed.

Lemma run_status_by_exit_witness :
  status (fst (run_with_persona_stoppable clicking_world stopped_after_two 5 fresh
                 start_page)) = "completed".
Proof.
  pose proof (run_status_by_exit clicking_world stopped_after_two 5 fresh start_page) as H.
  destruct (run_with_persona_stoppable clicking_world stopped_after_two 5 fresh start_page)
    as [fr ex] eqn:E.
  simpl. apply (proj1 (proj2 H)).
  vm_compute in E. injection E as _ <-. right; right; reflexivity.
Defined.

(** C5: with [max_steps = 5], a fresh simulation whose policy returns a
    stop action on its first decision ends with exactly one audit entry,
    [total_steps = 0] and status "completed" (the driver's string for a
    run the agent stopped), having left the loop on the stop action. *)
Theorem first_decision_stop (w : World) (reset_observation : Observation) (a : Action)
        (Hdecide : decide_action w 0 reset_observation = Some a)
        (Hstop : action_type a = STOP) :
  let '(fr, ex) := run_with_persona w 5 fresh reset_observation in
  List.length (steps fr) = 1%nat /\ total_steps fr = 0%Z /\ status fr = "completed"
  /\ ex = ExitStop.
Proof.
  unfold run_with_persona, run_with_persona_stoppable; simpl.
  rewrite Hdecide, Hstop; simpl.
  repeat split.
Qed.

Lemma first_decision_stop_witness :
  decide_action stopping_world 0 start_page = Some (mkAction STOP None)
  /\ total_steps (fst (run_with_persona stopping_world 5 fresh start_page)) = 0%Z.
Proof.
  split; [reflexivity|].
  pose proof (first_decision_stop stopping_world start_page (mkAction STOP None)
                eq_refl eq_refl) as H.
  destruct (run_with_persona stopping_world 5 fresh start_page) as [fr ex].
  apply H.
Defined.

End SimClaims.

Module MemFacts.
Import Mem.

Lemma NoDup_firstn_of {A} (k : nat) (l : list A) : NoDup l -> NoDup (firstn k l).
Proof.
  intros H. rewrite <- (firstn_skipn k l) in H. exact (NoDup_app_remove_r _ _ H).
Qed.

Lemma py_take_prefix {A} (l : list A) (k : Z) : exists j, py_take l k = firstn j l.
Proof. unfold py_take; destruct (0 <=? k)%Z; eexists; reflexivity. Qed.

Lemma py_take_NoDup {A} (l : list A) (k : Z) : NoDup l -> NoDup (py_take l k).
Proof. intros H; destruct (py_take_prefix l k) as [j ->]; now apply NoDup_firstn_of. Qed.

Lemma py_take_length {A} (l : list A) (k : Z) :
  (0 <= k)%Z -> (Z.of_nat (List.length (py_take l k)) <= k)%Z.
Proof.
  intros Hk; unfold py_take. apply Z.leb_le in Hk as Hk'; rewrite Hk'.
  pose proof (firstn_le_length (Z.to_nat k) l). lia.
Qed.

Lemma py_take_keeps_prefix {A} (l1 l2 : list A) (k : Z) :
  (Z.of_nat (List.length l1) <= k)%Z -> exists rest, py_take (l1 ++ l2) k = l1 ++ rest.
Proof.
  intros Hk; unfold py_take.
  assert (Hk' : (0 <=? k)%Z = true) by (apply Z.leb_le; lia). rewrite Hk'.
  rewrite firstn_app, firstn_all2 by lia. eexists; reflexivity.
Qed.

Lemma insert_desc_perm (scores : list Q) (i : nat) (l : list nat) :
  Permutation (insert_desc scores i l) (i :: l).
Proof.
  induction l as [|j l IH]; simpl; [reflexivity|].
  destruct (Qlt_le_dec (nth i scores 0) (nth j scores 0)); [|reflexivity].
  rewrite IH. apply perm_swap.
Qed.

Lemma argsort_desc_perm (scores : list Q) :
  Permutation (argsort_desc scores) (seq 0 (List.length scores)).
Proof.
  unfold argsort_desc. induction (seq 0 (List.length scores)) as [|i l IH]; simpl.
  - reflexivity.
  - rewrite insert_desc_perm. now apply perm_skip.
Qed.

Lemma argsort_desc_NoDup (scores : list Q) : NoDup (argsort_desc scores).
Proof.
  eapply Permutation_NoDup; [symmetry; apply argsort_desc_perm|apply seq_NoDup].
Qed.

Lemma py_in_false (m : Memory) (i : nat) (results : list nat) :
  py_in m i results = false -> ~ In i results.
Proof.
  unfold py_in; intros H Hin.
  assert (Hex : existsb (fun j => Nat.eqb i j || piece_eqb (piece_at m i) (piece_at m j))
                  results = true).
  { apply existsb_exists. exists i. split; [exact Hin|]. now rewrite Nat.eqb_refl. }
  congruence.
Qed.

(** Whatever path [rank] takes without raising, its result is the seed
    list followed by entries outside it, cut by [py_take]. *)
Lemma rank_shape (c : Caps) (req : Request) (m m' : Memory) (results : list nat)
      (r : list nat) :
  rank c req m m' results = Some r ->
  exists extra, r = py_take (results ++ extra) (n req) /\ NoDup extra
                /\ (forall i, In i extra -> ~ In i results).
Proof.
  assert (Hnil : py_take results (n req) = py_take (results ++ []) (n req))
    by now rewrite app_nil_r.
  assert (Hnil' : NoDup (@nil nat) /\ (forall i, In i (@nil nat) -> ~ In i results))
    by (split; [constructor|intros i []]).
  unfold rank.
  destruct (embeddings m') as [e|].
  2:{ intros H; injection H as <-. exists []; split; [exact Hnil|exact Hnil']. }
  destruct (Nat.eqb (List.length e) 0).
  { intros H; injection H as <-. exists []; split; [exact Hnil|exact Hnil']. }
  match goal with |- context [if Nat.eqb ?x 0 then _ else _] =>
    destruct (Nat.eqb x 0) end.
  { intros H; injection H as <-. exists []; split; [exact Hnil|exact Hnil']. }
  destruct (embed_text c [query req]) as [[|q qs]|]; try discriminate.
  match goal with |- context [if negb ?b then _ else _] => destruct (negb b) end;
    [discriminate|].
  intros H; injection H as <-.
  eexists; split; [reflexivity|]. split.
  - apply NoDup_filter, NoDup_filter, py_take_NoDup, argsort_desc_NoDup.
  - intros i Hi. apply filter_In in Hi as [_ Hi].
    apply negb_true_iff in Hi. now apply py_in_false in Hi.
Qed.

End MemFacts.

Module RetrievalFacts.
Import Mem MemFacts.

Lemma positions_NoDup (m : Memory) : NoDup (positions m).
Proof. apply seq_NoDup. Qed.

Lemma seeds_NoDup (m : Memory) : NoDup (seeds m).
Proof.
  unfold seeds, recent_observations, recent_actions.
  apply NoDup_app; try (apply NoDup_filter, positions_NoDup).
  intros i H1 H2. apply filter_In in H1 as [_ H1]. apply filter_In in H2 as [_ H2].
  apply andb_true_iff in H1 as [H1 _]. apply andb_true_iff in H2 as [H2 _].
  apply String.eqb_eq in H1, H2. congruence.
Qed.

Lemma fallback_NoDup (m : Memory) : NoDup (fallback m).
Proof. unfold fallback, positions. rewrite skipn_seq. apply seq_NoDup. Qed.

Lemma fallback_length (m : Memory) :
  List.length (fallback m) = Nat.min 5 (List.length (memories m)).
Proof. unfold fallback, positions. rewrite skipn_seq, length_seq. lia. Qed.

Lemma retrieve_core_shape (c : Caps) (req : Request) (m : Memory) (r : list nat) :
  retrieve_core c req m = Some r ->
  exists extra, r = py_take ((if include_recent req then seeds m else []) ++ extra) (n req)
                /\ NoDup extra
                /\ (forall i, In i extra ->
                      ~ In i (if include_recent req then seeds m else [])).
Proof.
  unfold retrieve_core. destruct (memories m) eqn:Hm.
  - intros H; injection H as <-. exists [].
    assert (Hs : seeds m = []) by (unfold seeds, recent_observations, recent_actions,
                                    positions; now rewrite Hm).
    rewrite Hs. destruct (include_recent req); simpl;
      (split; [unfold py_take; destruct (0 <=? n req)%Z; now rewrite !firstn_nil|];
       split; [constructor|intros i []]).
  - apply rank_shape.
Qed.

End RetrievalFacts.

Module RetrievalClaims.
Import Mem MemFacts RetrievalFacts Fixtures.

(** C3 (counterexample): on an enriched store, when the query embedding
    raises, [retrieve_relevant] returns the five most recent entries, and
    the one seed entry (a current observation) is missing although [n = 10]
    holds the whole seed list. *)
Lemma recent_window_lost_on_fallback :
  seeds store6 = [0%nat]
  /\ include_recent req10 = true
  /\ (Z.of_nat (List.length (seeds store6)) <= n req10)%Z
  /\ snd (retrieve_relevant caps_embed_down req10 store6) = [1; 2; 3; 4; 5]%nat
  /\ ~ In 0%nat (snd (retrieve_relevant caps_embed_down req10 store6)).
Proof.
  vm_compute. repeat split; try discriminate.
  intros [H|[H|[H|[H|[H|[]]]]]]; discriminate.
Qed.

(** C3 (amended): with [include_recent] and [n] at least the size of the
    seed list, a retrieval that does not raise returns the whole seed list
    (recent observations, then recent actions, in insertion order) before
    any score-ranked entry; a retrieval that raises returns the fallback,
    the five most recent entries. *)
Theorem retrieve_keeps_recent_window (c : Caps) (req : Request) (m : Memory)
        (Hrec : include_recent req = true)
        (Hn : (Z.of_nat (List.length (seeds m)) <= n req)%Z) :
  match retrieve_core c req m with
  | Some r => snd (retrieve_relevant c req m) = r /\ exists rest, r = seeds m ++ rest
  | None => snd (retrieve_relevant c req m) = fallback m
  end.
Proof.
  unfold retrieve_relevant; simpl.
  destruct (retrieve_core c req m) as [r|] eqn:Hcore; [|reflexivity].
  split; [reflexivity|].
  destruct (retrieve_core_shape c req m r Hcore) as [extra [-> _]].
  rewrite Hrec. now apply py_take_keeps_prefix.
Qed.

Lemma retrieve_keeps_recent_window_witness :
  include_recent (mkRequest "q" 10 true None) = true
  /\ snd (retrieve_relevant caps_up (mkRequest "q" 10 true None) store4)
     = [0; 1; 2; 3]%nat.
Proof.
  split; [reflexivity|].
  pose proof (retrieve_keeps_recent_window caps_up (mkRequest "q" 10 true None) store4
                eq_refl ltac:(vm_compute; discriminate)) as H.
  vm_compute in H. vm_compute. destruct H as [H _]. exact H.
Defined.

(** C7 (counterexample): with [n = 1], a retrieval whose query embedding
    raises returns the fallback of two entries, more than [n]. *)
Lemma retrieve_exceeds_cap_on_fallback :
  (Z.of_nat (List.length (snd (retrieve_relevant caps_embed_down req1 store2)))
     > n req1)%Z.
Proof. vm_compute. reflexivity. Qed.

(** C7 (amended): the list [retrieve_relevant] returns never holds the
    same entry twice; when no exception occurs its length is at most [n]
    for every [n >= 0]; when an exception occurs it is the fallback, the
    [min 5 (len entries)] most recent entries, whatever [n] is. *)
Theorem retrieve_no_duplicates_and_cap (c : Caps) (req : Request) (m : Memory) :
  NoDup (snd (retrieve_relevant c req m))
  /\ match retrieve_core c req m with
     | Some r => (0 <= n req)%Z -> (Z.of_nat (List.length r) <= n req)%Z
     | None => List.length (snd (retrieve_relevant c req m))
               = Nat.min 5 (List.length (memories m))
     end.
Proof.
  unfold retrieve_relevant; simpl.
  destruct (retrieve_core c req m) as [r|] eqn:Hcore.
  - destruct (retrieve_core_shape c req m r Hcore) as [extra [-> [Hnd Hdisj]]].
    split.
    + apply py_take_NoDup, NoDup_app; [|exact Hnd|].
      * destruct (include_recent req); [apply seeds_NoDup|constructor].
      * intros i Hi Hi'. exact (Hdisj i Hi' Hi).
    + apply py_take_length.
  - split; [apply fallback_NoDup|apply fallback_length].
Qed.

Lemma retrieve_no_duplicates_and_cap_witness :
  (Z.of_nat (List.length (snd (retrieve_relevant caps_up req10 store6))) <= 10)%Z.
Proof.
  destruct (retrieve_no_duplicates_and_cap caps_up req10 store6) as [_ H].
  vm_compute in H. vm_compute. apply H. discriminate.
Defined.

End RetrievalClaims.

Module PlanClaims.
Import Json Mem MemFacts Planning Fixtures.

(** C6 (counterexample): the weights [plan()] passes give observations the
    default weight 1, not 0, and an old observation (outside the recency
    window, so not a seed) is returned by the score-ranked part of the
    planning retrieval. *)
Lemma plan_retrieval_ranks_observations :
  kind_weight_get plan_kind_weight "observation" = 1%Z
  /\ seeds old_observation_store = []
  /\ memory_type (piece_at old_observation_store 0) = "observation"
  /\ snd (retrieve_relevant caps_up (plan_request "buy a kettle" initial_plan)
            old_observation_store) = [0%nat].
Proof. vm_compute. repeat split. Qed.

(** C6 (amended): the retrieval of [plan()] asks for at most 20 entries,
    with the recency seeds, weight 10 for the action, plan, thought and
    reflection kinds and the default weight 1 for every other kind,
    observations included: observations are down-weighted tenfold, not
    excluded from the score-ranked part. *)
Theorem plan_retrieval_request (intent : string) (st : AgentPlan) :
  let req := plan_request intent st in
  n req = 20%Z /\ include_recent req = true
  /\ (forall kind,
        kind_weight_get (match kind_weight req with Some kw => kw | None => [] end) kind
        = if existsb (String.eqb kind) ["action"; "plan"; "thought"; "reflection"]
          then 10%Z else 1%Z).
Proof.
  unfold plan_request; cbn -[String.eqb].
  split; [reflexivity|split; [reflexivity|]].
  intros kind. unfold plan_kind_weight; cbn -[String.eqb].
  rewrite !(String.eqb_sym kind).
  destruct (String.eqb "action" kind), (String.eqb "plan" kind),
    (String.eqb "thought" kind), (String.eqb "reflection" kind); reflexivity.
Qed.

Lemma plan_retrieval_request_witness :
  kind_weight_get plan_kind_weight "observation" = 1%Z.
Proof.
  destruct (plan_retrieval_request "buy a kettle" initial_plan) as [_ [_ H]].
  exact (H "observation").
Defined.

End PlanClaims.

Module EnrichmentClaims.
Import Mem.

(** Where both derived arrays already exist with equal lengths, one sync
    whose capabilities succeed extends both to the length of the entry
    list: the commit itself keeps the arrays in lock-step. *)
Lemma sync_extends_enriched_prefix (c : Caps) (ms : list MemoryPiece)
      (e : list (list Q)) (i : list Q) (t : Z) (embeds : list (list Q)) :
  List.length e = List.length i ->
  (List.length e < List.length ms)%nat ->
  embed_text c (map content (skipn (List.length e) ms)) = Some embeds ->
  List.length embeds = (List.length ms - List.length e)%nat ->
  let m' := update_embeddings_and_importance c (mkMemory ms (Some e) (Some i) t) in
  option_map (@List.length _) (embeddings m') = Some (List.length ms)
  /\ option_map (@List.length _) (importance_scores m') = Some (List.length ms).
Proof.
  intros Hei Hlt Hemb Hlen. unfold update_embeddings_and_importance; simpl.
  assert (Hne : Nat.eqb (List.length e) (List.length ms) = false)
    by (apply Nat.eqb_neq; lia).
  rewrite Hne.
  assert (Hsk : List.length (skipn (List.length e) ms) = (List.length ms - List.length e)%nat)
    by apply length_skipn.
  destruct (skipn (List.length e) ms) as [|p rest] eqn:Hs; [simpl in Hsk; lia|].
  rewrite Hemb.
  assert (Hltb : Nat.ltb (List.length embeds) (List.length (p :: rest)) = false)
    by (apply Nat.ltb_ge; rewrite Hsk; lia).
  rewrite Hltb. simpl.
  unfold new_importance. rewrite length_app, length_map, length_skipn.
  split; [|f_equal; lia].
  destruct (Nat.eqb (List.length e) 0) eqn:E0; simpl; f_equal.
  - apply Nat.eqb_eq in E0; lia.
  - rewrite length_app; lia.
Qed.

(** C1 (code bug): a store fresh from [Memory.__init__] has
    [embeddings = None]; [sync_enrichment] starts with
    [len(self.embeddings)], which raises, and its [except] clause leaves the
    store as it was.  With entries present and capabilities that succeed,
    the first call and every later one commit nothing: the derived arrays
    stay [None] and never reach the length of the entry list. *)
Theorem sync_from_fresh_store_commits_nothing (c : Caps) (ms : list MemoryPiece)
        (now : Z) (k : nat) :
  Nat.iter k (update_embeddings_and_importance c) (init ms now) = init ms now
  /\ embeddings (Nat.iter k (update_embeddings_and_importance c) (init ms now)) = None
  /\ importance_scores (Nat.iter k (update_embeddings_and_importance c) (init ms now))
     = None.
Proof.
  assert (H : Nat.iter k (update_embeddings_and_importance c) (init ms now) = init ms now).
  { induction k as [|k IH]; simpl; [reflexivity|]. rewrite IH. reflexivity. }
  rewrite H. repeat split.
Qed.

End EnrichmentClaims.

Module PlanFallbackClaims.
Import Json Mem Planning Fixtures.

(** When every attempt raises, the third [except] clause installs the
    fallback triple. *)
Lemma plan_all_attempts_raise (st : AgentPlan) :
  plan_loop (fun _ => None) max_retries 0 st = fallback_plan.
Proof. reflexivity. Qed.

(** C2 (code bug): when all three attempts return a JSON object missing
    "rationale" and "next_step", no attempt raises, so the fallback
    (installed only in the [except] clause of the last attempt) is never
    set: the plan fields keep their previous values. *)
Theorem plan_incomplete_answers_skip_fallback (c : Caps) (intent : string) (m : Memory) :
  snd (plan c intent m initial_plan (fun _ => Some incomplete_response)) = initial_plan
  /\ initial_plan <> fallback_plan.
Proof.
  unfold plan. destruct (retrieve_relevant c (plan_request intent initial_plan) m).
  split; [reflexivity|discriminate].
Qed.

End PlanFallbackClaims.

Module ActFacts.
Import Json Acting.

Lemma map_items_one_fails (items : list json) (d : json) :
  In d items -> map_item d = None -> map_items items = None.
Proof.
  intros Hin Hd. induction items as [|d' items IH]; [destruct Hin|].
  destruct Hin as [<-|Hin]; simpl.
  - now rewrite Hd.
  - destruct (map_item d'); [|reflexivity]. now rewrite IH.
Qed.

Lemma map_items_all (items : list json) :
  (forall d, In d items -> map_item d <> None) ->
  exists acts, map_items items = Some acts
               /\ Forall2 (fun d a => map_item d = Some a) items acts.
Proof.
  induction items as [|d items IH]; intros Hall.
  - exists []. split; [reflexivity|constructor].
  - destruct (map_item d) as [a|] eqn:Hd.
    2:{ exfalso. exact (Hall d (or_introl eq_refl) Hd). }
    destruct IH as (acts & Hm & H2).
    { intros d' Hin. apply Hall. now right. }
    exists (a :: acts). simpl. rewrite Hd, Hm. split; [reflexivity|]. now constructor.
Qed.

End ActFacts.

Module ActClaims.
Import Json Acting Fixtures.

(** C8 (counterexample): an item with an unrecognized type yields a stop
    action whose reason is the item's "description", not the default
    reason. *)
Lemma unknown_type_stop_takes_description :
  actions_of_response (Some (JObj [("actions", JArr [described_unknown_item])]))
  = [StopAction (JStr "Scroll to the reviews")]
  /\ JStr "Scroll to the reviews" <> default_stop_reason.
Proof. split; [reflexivity|discriminate]. Qed.

(** C8 (amended): an item that is a JSON object whose "type" is a string
    (or absent) yields exactly one action: a lower-cased "search", "click",
    "type" or "select" gives that action; every other value, "stop",
    "back", "wait", a type outside the mapping table or a missing type,
    gives a stop action whose reason is the item's "reason", else its
    "description", else the default "Agent decided to stop".  When every
    item of a response's "actions" list maps, [act] returns one action per
    item, in order; an item that is not an object, or whose "type" is not
    a string, makes [act] return no actions, whatever the other keys of the
    response.  The response {"actions":[{"type":"click","element_id":"x"}]}
    yields exactly one click action on "x". *)
Theorem act_item_mapping :
  (forall kvs : list (string * json),
     match type_string kvs with
     | None => map_item (JObj kvs) = None
     | Some s =>
         match action_type_mapping (lower s) with
         | Some SEARCH => exists q, map_item (JObj kvs) = Some (SearchAction q)
         | Some CLICK => exists e, map_item (JObj kvs) = Some (ClickAction e)
         | Some TYPE => exists e x, map_item (JObj kvs) = Some (TypeAction e x)
         | Some SELECT => exists e v, map_item (JObj kvs) = Some (SelectAction e v)
         | Some BACK | Some WAIT | Some STOP | None =>
             map_item (JObj kvs)
             = Some (StopAction (match obj_lookup kvs "reason" with
                                 | Some r => r
                                 | None => match obj_lookup kvs "description" with
                                           | Some d => d
                                           | None => default_stop_reason
                                           end
                                 end))
         end
     end)
  /\ (forall d, (forall kvs, d <> JObj kvs) -> map_item d = None)
  /\ (forall kvs items,
        obj_lookup kvs "actions" = Some (JArr items) ->
        (forall d, In d items -> map_item d <> None) ->
        Forall2 (fun d a => map_item d = Some a) items
                (actions_of_response (Some (JObj kvs))))
  /\ (forall kvs items d,
        obj_lookup kvs "actions" = Some (JArr items) ->
        In d items -> map_item d = None ->
        actions_of_response (Some (JObj kvs)) = [])
  /\ actions_of_response (Some click_response) = [ClickAction (JStr "x")].
Proof.
  split; [|split; [|split; [|split]]].
  - intros kvs. unfold type_string, map_item, get.
    destruct (obj_lookup kvs "type") as [v|] eqn:Ht.
    + destruct v as [| | |s| |]; try reflexivity. simpl.
      destruct (action_type_mapping (lower s)) as [[]|]; simpl;
        repeat match goal with
               | |- context [obj_lookup kvs ?k] => destruct (obj_lookup kvs k)
               end; simpl; repeat eexists.
    + simpl. destruct (obj_lookup kvs "reason"), (obj_lookup kvs "description");
        reflexivity.
  - intros d Hd. destruct d; try reflexivity. exfalso; exact (Hd kvs eq_refl).
  - intros kvs items Hl Hall. unfold actions_of_response, get. rewrite Hl. simpl.
    destruct (ActFacts.map_items_all items Hall) as (acts & Hm & H2).
    now rewrite Hm.
  - intros kvs items d Hl Hin Hd. unfold actions_of_response, get. rewrite Hl. simpl.
    now rewrite (ActFacts.map_items_one_fails items d Hin Hd).
  - reflexivity.
Qed.

Lemma act_item_mapping_witness :
  actions_of_response (Some (JObj [("actions", JArr [JNum 3])])) = [].
Proof.
  destruct act_item_mapping as [_ [Hnot [_ [Hitems _]]]].
  apply (Hitems [("actions", JArr [JNum 3])] [JNum 3] (JNum 3));
    [reflexivity | left; reflexivity |].
  apply Hnot. discriminate.
Defined.

End ActClaims.

(** * Further properties of the memory store *)

Module ExtraRetrieval.
Import Mem MemFacts RetrievalFacts MemOps.

Lemma py_take_incl {A} (l : list A) (k : Z) (x : A) : In x (py_take l k) -> In x l.
Proof.
  destruct (py_take_prefix l k) as [j ->]. intros H.
  rewrite <- (firstn_skipn j l). apply in_or_app. now left.
Qed.

Lemma update_memories (c : Caps) (m : Memory) :
  memories (update_embeddings_and_importance c m) = memories m
  /\ mem_timestamp (update_embeddings_and_importance c m) = mem_timestamp m.
Proof.
  unfold update_embeddings_and_importance.
  destruct (embeddings m) as [e|]; [|auto].
  destruct (Nat.eqb _ _); [auto|].
  destruct (skipn _ _); [auto|].
  destruct (embed_text c _) as [embeds|]; [|auto].
  destruct (Nat.ltb _ _); auto.
Qed.

Lemma seeds_bound (m : Memory) (i : nat) :
  In i (seeds m) -> (i < List.length (memories m))%nat.
Proof.
  unfold seeds, recent_observations, recent_actions, positions.
  intros H; apply in_app_or in H as [H|H]; apply filter_In in H as [H _];
    apply in_seq in H; lia.
Qed.

Lemma rank_bound (c : Caps) (req : Request) (m m' : Memory) (results r : list nat) :
  rank c req m m' results = Some r ->
  forall i, In i r -> In i results \/ (i < List.length (memories m'))%nat.
Proof.
  unfold rank.
  destruct (embeddings m') as [e|].
  2:{ intros H; injection H as <-. intros i Hi; left; exact (py_take_incl _ _ _ Hi). }
  destruct (Nat.eqb (List.length e) 0).
  { intros H; injection H as <-. intros i Hi; left; exact (py_take_incl _ _ _ Hi). }
  match goal with |- context [if Nat.eqb ?x 0 then _ else _] =>
    destruct (Nat.eqb x 0) end.
  { intros H; injection H as <-. intros i Hi; left; exact (py_take_incl _ _ _ Hi). }
  destruct (embed_text c [query req]) as [[|q qs]|]; try discriminate.
  match goal with |- context [if negb ?b then _ else _] => destruct (negb b) end;
    [discriminate|].
  intros H; injection H as <-. intros i Hi.
  apply py_take_incl, in_app_or in Hi as [Hi|Hi]; [now left|right].
  apply filter_In in Hi as [Hi _]. apply filter_In in Hi as [_ Hi].
  now apply Nat.ltb_lt in Hi.
Qed.

(** The order [np.argsort(-scores)] gives: every position exactly once,
    higher scores first, equal scores in increasing position. *)
Lemma HdRel_insert_desc (scores : list Q) (a i : nat) (l : list nat) :
  let R := fun x y => nth y scores 0 < nth x scores 0
                      \/ (nth x scores 0 == nth y scores 0 /\ (x < y)%nat) in
  R a i -> HdRel R a l -> HdRel R a (insert_desc scores i l).
Proof.
  intros R Hai Hl. destruct l as [|j l]; simpl; [now constructor|].
  destruct (Qlt_le_dec (nth i scores 0) (nth j scores 0)); constructor;
    [inversion Hl; assumption|assumption].
Qed.

Lemma insert_desc_sorted (scores : list Q) (i : nat) (l : list nat) :
  let R := fun x y => nth y scores 0 < nth x scores 0
                      \/ (nth x scores 0 == nth y scores 0 /\ (x < y)%nat) in
  Sorted R l -> Forall (fun j => (i < j)%nat) l -> Sorted R (insert_desc scores i l).
Proof.
  intros R. induction l as [|j l IH]; intros Hs Hf; simpl.
  - repeat constructor.
  - inversion Hs as [|? ? Hs' Hhd]; subst. inversion Hf as [|? ? Hij Hf']; subst.
    destruct (Qlt_le_dec (nth i scores 0) (nth j scores 0)) as [Hlt|Hle].
    + constructor; [now apply IH|]. apply HdRel_insert_desc; [now left|assumption].
    + constructor; [now constructor|]. constructor.
      apply Qle_lteq in Hle as [Hl|He]; [now left|right; split; [now symmetry|exact Hij]].
Qed.

Lemma fold_insert_perm (scores : list Q) (l : list nat) :
  Permutation (fold_right (insert_desc scores) [] l) l.
Proof.
  induction l as [|i l IH]; simpl; [reflexivity|].
  rewrite insert_desc_perm. now apply perm_skip.
Qed.

Lemma fold_insert_sorted (scores : list Q) (a len : nat) :
  Sorted (fun x y => nth y scores 0 < nth x scores 0
                     \/ (nth x scores 0 == nth y scores 0 /\ (x < y)%nat))
         (fold_right (insert_desc scores) [] (seq a len)).
Proof.
  revert a; induction len as [|len IH]; intros a; simpl; [constructor|].
  apply insert_desc_sorted; [apply IH|].
  apply Forall_forall; intros x Hx.
  apply (Permutation_in _ (fold_insert_perm scores (seq (S a) len))) in Hx.
  apply in_seq in Hx; lia.
Qed.

Lemma Sorted_weaken {A} (R R' : A -> A -> Prop) (l : list A) :
  (forall x y, R x y -> R' x y) -> Sorted R l -> Sorted R' l.
Proof.
  intros HR Hs. induction Hs as [|x l Hs IH Hhd]; constructor; [exact IH|].
  destruct Hhd; constructor. now apply HR.
Qed.

(** X1: [argsort_desc] lists every position of the score array exactly
    once, by non-increasing score. *)
Theorem argsort_desc_ranks (scores : list Q) :
  Permutation (argsort_desc scores) (seq 0 (List.length scores))
  /\ Sorted (fun x y => nth y scores 0 <= nth x scores 0) (argsort_desc scores).
Proof.
  split; [apply fold_insert_perm|].
  eapply Sorted_weaken; [|apply fold_insert_sorted].
  intros x y [Hlt|[Heq _]]; [now apply Qlt_le_weak|rewrite Heq; apply Qle_refl].
Qed.

(** X2: on a store whose embeddings were never set, [retrieve_relevant]
    leaves the store as it is and returns the seed list cut to [n] (the
    empty list when [include_recent] is false), whatever the capabilities
    do. *)
Theorem retrieve_unenriched_store (c : Caps) (req : Request) (m : Memory)
        (Hnone : embeddings m = None) :
  retrieve_relevant c req m
  = (m, py_take (if include_recent req then seeds m else []) (n req)).
Proof.
  assert (Hu : update_embeddings_and_importance c m = m)
    by (unfold update_embeddings_and_importance; now rewrite Hnone).
  unfold retrieve_relevant, retrieve_core.
  destruct (memories m) eqn:Hm.
  - assert (Hs : seeds m = [])
      by (unfold seeds, recent_observations, recent_actions, positions; now rewrite Hm).
    rewrite Hs. f_equal. destruct (include_recent req);
      unfold py_take; destruct (0 <=? n req)%Z; now rewrite firstn_nil.
  - rewrite Hu. unfold rank. now rewrite Hnone.
Qed.

Lemma retrieve_unenriched_store_witness :
  retrieve_relevant Fixtures.caps_up (mkRequest "q" 2 true None) Fixtures.store4
  = (Fixtures.store4, [0; 1]%nat).
Proof.
  rewrite (retrieve_unenriched_store Fixtures.caps_up (mkRequest "q" 2 true None)
             Fixtures.store4 eq_refl).
  reflexivity.
Defined.

(** X3: every position [retrieve_relevant] returns is an entry of the
    store. *)
Theorem retrieve_returns_stored_entries (c : Caps) (req : Request) (m : Memory) (i : nat)
        (Hin : In i (snd (retrieve_relevant c req m))) :
  (i < List.length (memories m))%nat.
Proof.
  unfold retrieve_relevant in Hin; simpl in Hin.
  destruct (retrieve_core c req m) as [r|] eqn:Hcore.
  - unfold retrieve_core in Hcore. destruct (memories m) eqn:Hm.
    + injection Hcore as <-. destruct Hin.
    + rewrite <- Hm in *.
      destruct (rank_bound c req m _ _ r Hcore i Hin) as [Hs|Hb].
      * destruct (include_recent req); [now apply seeds_bound|destruct Hs].
      * now rewrite (proj1 (update_memories c m)) in Hb.
  - unfold fallback, positions in Hin. rewrite skipn_seq in Hin.
    apply in_seq in Hin; lia.
Qed.

Lemma retrieve_returns_stored_entries_witness :
  (1 < List.length (memories Fixtures.store6))%nat.
Proof.
  apply (retrieve_returns_stored_entries Fixtures.caps_embed_down Fixtures.req10
           Fixtures.store6 1).
  vm_compute. auto.
Defined.

End ExtraRetrieval.

Module ExtraEnrichment.
Import Mem MemFacts RetrievalFacts MemOps.

(** The two outcomes of [update_embeddings_and_importance]: the store is
    left as it is, or the batch for the entries past the embedding array
    was embedded and both arrays were extended. *)
Lemma update_cases (c : Caps) (m : Memory) :
  update_embeddings_and_importance c m = m
  \/ exists e embeds,
       embeddings m = Some e
       /\ (List.length e < List.length (memories m))%nat
       /\ embed_text c (map content (skipn (List.length e) (memories m))) = Some embeds
       /\ (List.length (skipn (List.length e) (memories m)) <= List.length embeds)%nat
       /\ update_embeddings_and_importance c m
          = mkMemory (memories m)
              (Some (if Nat.eqb (List.length e) 0 then embeds else (e ++ embeds)%list))
              (Some (match importance_scores m with
                     | None => new_importance c (skipn 0 (memories m))
                     | Some i => (i ++ new_importance c
                                        (skipn (List.length i) (memories m)))%list
                     end))
              (mem_timestamp m).
Proof.
  unfold update_embeddings_and_importance.
  destruct (embeddings m) as [e|] eqn:He; [|now left].
  destruct (Nat.eqb _ _); [now left|].
  destruct (skipn (List.length e) (memories m)) as [|p ps] eqn:Hs; [now left|].
  rewrite <- Hs.
  destruct (embed_text c _) as [embeds|] eqn:Hemb; [|now left].
  destruct (Nat.ltb _ _) eqn:Hlt; [now left|].
  right. exists e, embeds. repeat split; auto.
  - assert (Hl := length_skipn (List.length e) (memories m)).
    rewrite Hs in Hl. simpl in Hl. lia.
  - now apply Nat.ltb_ge in Hlt.
  - now destruct (importance_scores m).
Qed.

(** X4: enrichment never touches the entries or the tick, and only appends
    to the arrays it finds: an array that existed is a prefix of the new
    one (an empty embedding array is replaced, which is also an append). *)
Theorem update_only_appends (c : Caps) (m : Memory) :
  memories (update_embeddings_and_importance c m) = memories m
  /\ mem_timestamp (update_embeddings_and_importance c m) = mem_timestamp m
  /\ (forall e, embeddings m = Some e ->
        exists d, embeddings (update_embeddings_and_importance c m) = Some (e ++ d)%list)
  /\ (forall i, importance_scores m = Some i ->
        exists d, importance_scores (update_embeddings_and_importance c m)
                  = Some (i ++ d)%list).
Proof.
  destruct (update_cases c m) as [->|(e & embeds & He & Hlt & Hemb & Hge & ->)].
  - repeat split; intros x Hx; exists []; now rewrite app_nil_r.
  - simpl. repeat split.
    + intros e' He'. rewrite He in He'. injection He' as <-.
      destruct (Nat.eqb (List.length e) 0) eqn:H0.
      * apply Nat.eqb_eq, length_zero_iff_nil in H0. subst e. now exists embeds.
      * now exists embeds.
    + intros i Hi. rewrite Hi. eexists; reflexivity.
Qed.

Lemma new_importance_length (c : Caps) (ms : list MemoryPiece) :
  List.length (new_importance c ms) = List.length ms.
Proof. apply length_map. Qed.

(** X5: under an embedding capability that returns one vector per input,
    the shape invariant of the store (both arrays absent, or both present
    with equal lengths no longer than the entry list) holds after
    [add_memory] and after [update_embeddings_and_importance]. *)
Theorem arrays_in_step_preserved (c : Caps) (m : Memory)
        (Haligned : embed_aligned c) (Hinv : arrays_in_step m) :
  arrays_in_step (update_embeddings_and_importance c m)
  /\ forall p, arrays_in_step (add_memory m p).
Proof.
  split.
  - destruct (update_cases c m) as [->|(e & embeds & He & Hlt & Hemb & Hge & ->)];
      [exact Hinv|].
    unfold arrays_in_step in *; simpl. rewrite He in Hinv.
    destruct (importance_scores m) as [i|] eqn:Hi; [|contradiction].
    destruct Hinv as [Hei _].
    apply Haligned in Hemb. rewrite length_map, length_skipn in Hemb.
    rewrite length_app, new_importance_length, length_skipn.
    destruct (Nat.eqb (List.length e) 0) eqn:H0.
    + apply Nat.eqb_eq in H0. lia.
    + rewrite length_app. lia.
  - intros p. unfold arrays_in_step, add_memory in *; simpl.
    destruct (embeddings m), (importance_scores m); try contradiction; auto.
    rewrite length_app. lia.
Qed.

Lemma arrays_in_step_preserved_witness :
  arrays_in_step (update_embeddings_and_importance Fixtures.caps_up Fixtures.store3_partial)
  /\ forall p, arrays_in_step (add_memory Fixtures.store3_partial p).
Proof.
  apply arrays_in_step_preserved.
  - intros xs v H. injection H as <-. apply length_map.
  - vm_compute. auto.
Defined.

(** X6: a sync that extended the arrays leaves nothing for the next one:
    whatever the embedding service answers on the second call, a second
    enrichment right after a committing one changes nothing; when the
    first one did not commit, the store is the one it found. *)
Theorem update_after_commit_is_noop (c1 c2 : Caps) (m : Memory) :
  update_embeddings_and_importance c2 (update_embeddings_and_importance c1 m)
  = update_embeddings_and_importance c1 m
  \/ update_embeddings_and_importance c1 m = m.
Proof.
  destruct (update_cases c1 m) as [Hm|(e & embeds & He & Hlt & Hemb & Hge & Hm)];
    [now right|left].
  rewrite Hm. rewrite length_skipn in Hge.
  unfold update_embeddings_and_importance at 1; simpl.
  destruct (Nat.eqb _ (List.length (memories m))) eqn:Heq; [reflexivity|].
  replace (skipn _ (memories m)) with (@nil MemoryPiece); [reflexivity|].
  symmetry. apply skipn_all2.
  destruct (Nat.eqb (List.length e) 0) eqn:H0.
  - apply Nat.eqb_eq in H0. lia.
  - rewrite length_app. lia.
Qed.

End ExtraEnrichment.

Module ExtraAddMemory.
Import Mem MemFacts RetrievalFacts MemOps.

Lemma piece_at_added (m : Memory) (p : MemoryPiece) :
  piece_at (add_memory m p) (List.length (memories m))
  = mkPiece (content p) (memory_type p) (mem_timestamp m).
Proof.
  unfold piece_at, add_memory; simpl.
  rewrite app_nth2 by lia. now rewrite Nat.sub_diag.
Qed.

(** X7: [add_memory] stamps the entry with the current tick, so a
    just-added observation or action is one of the recent seeds; a
    successful retrieval with [include_recent] and [n] at least the number
    of seeds returns it. *)
Theorem added_entry_is_recent (c : Caps) (req : Request) (m : Memory) (p : MemoryPiece)
        (Hkind : memory_type p = "observation" \/ memory_type p = "action") :
  In (List.length (memories m)) (seeds (add_memory m p))
  /\ forall r, include_recent req = true ->
       (Z.of_nat (List.length (seeds (add_memory m p))) <= n req)%Z ->
       retrieve_core c req (add_memory m p) = Some r ->
       In (List.length (memories m)) r.
Proof.
  assert (Hpos : In (List.length (memories m)) (positions (add_memory m p))).
  { unfold positions, add_memory; simpl. rewrite length_app. apply in_seq. simpl; lia. }
  assert (Hseed : In (List.length (memories m)) (seeds (add_memory m p))).
  { unfold seeds, recent_observations, recent_actions. apply in_or_app.
    destruct Hkind as [Hk|Hk]; [left|right]; apply filter_In; split; auto;
      rewrite piece_at_added; simpl; rewrite Hk;
      apply andb_true_intro; (split; [apply String.eqb_refl|apply Z.leb_le; lia]). }
  split; [exact Hseed|].
  intros r Hinc Hn Hcore.
  destruct (retrieve_core_shape c req _ r Hcore) as (extra & -> & _ & _).
  rewrite Hinc in *.
  destruct (py_take_keeps_prefix (seeds (add_memory m p)) extra (n req) Hn)
    as [rest ->].
  apply in_or_app; now left.
Qed.

Lemma added_entry_is_recent_witness :
  In 2%nat (seeds (add_memory Fixtures.store2 (mkPiece "clicked" "action" 7)))
  /\ forall r, include_recent Fixtures.req10 = true ->
       (Z.of_nat (List.length (seeds (add_memory Fixtures.store2
                                        (mkPiece "clicked" "action" 7))))
        <= n Fixtures.req10)%Z ->
       retrieve_core Fixtures.caps_up Fixtures.req10
         (add_memory Fixtures.store2 (mkPiece "clicked" "action" 7)) = Some r ->
       In 2%nat r.
Proof.
  exact (added_entry_is_recent Fixtures.caps_up Fixtures.req10 Fixtures.store2
           (mkPiece "clicked" "action" 7) (or_intror eq_refl)).
Defined.

End ExtraAddMemory.

(** * Further properties of the simulation driver *)

Module ExtraSim.
Import Sim SimOps.

Lemma loop_trail (w : World) (running : Z -> bool) (fuel : nat) (max_steps : Z)
      (s : Simulation) (obs : Observation) :
  let '(s', ex) := loop w running fuel max_steps s obs in
  exists new,
    results s' = (results s ++ new)%list
    /\ map record_step new
       = map (fun k => step_count s + 1 + Z.of_nat k)%Z (seq 0 (List.length new))
    /\ Z.of_nat (List.length new) = (step_count s' - step_count s + exit_entries ex)%Z
    /\ (step_count s <= step_count s' <= Z.max max_steps (step_count s))%Z.
Proof.
  revert s obs; induction fuel as [|fuel IH]; intros s obs; simpl.
  - exists []. rewrite app_nil_r. repeat split; simpl; lia.
  - destruct (step_count s <? max_steps)%Z eqn:Hlt.
    2:{ exists []. rewrite app_nil_r. repeat split; simpl; lia. }
    apply Z.ltb_lt in Hlt.
    destruct (running (step_count s)).
    2:{ exists []. rewrite app_nil_r. repeat split; simpl; lia. }
    destruct (decide_action w (step_count s) obs) as [a|].
    + destruct (ActionType_eqb (action_type a) STOP).
      * eexists; split; [reflexivity|]. simpl. repeat split; try lia.
        now rewrite Z.add_0_r.
      * destruct (env_step w (step_count s) a) as [o'|].
        -- specialize (IH (mkSimulation (step_count s + 1)
                             (results s ++ [StepEntry (step_count s + 1) obs a None
                                              (step_error o')])) o').
           destruct (loop w running fuel max_steps _ o') as [s' ex].
           destruct IH as (new & Hres & Hnum & Hlen & Hbound); simpl in *.
           exists (StepEntry (step_count s + 1) obs a None (step_error o') :: new).
           split; [rewrite Hres; now rewrite <- app_assoc|].
           split; [|simpl List.length; split; lia].
           simpl. f_equal; [lia|]. rewrite Hnum, <- seq_shift, map_map.
           apply map_ext; intros k; lia.
        -- eexists; split; [reflexivity|]. simpl. repeat split; try lia.
           now rewrite Z.add_0_r.
    + eexists; split; [reflexivity|]. simpl. repeat split; try lia.
      now rewrite Z.add_0_r.
Qed.

(** X8: a run only appends to the audit trail it finds; the new entries
    are numbered consecutively from the step counter it started at, plus
    one; there is one per completed step, plus one when the loop ended on
    a stop action or an exception (none when it ended on the budget or on
    [Simulation.stop()]). *)
Theorem run_audit_trail (w : World) (running : Z -> bool) (max_steps : Z)
        (s : Simulation) (obs : Observation) :
  let '(fr, ex) := run_with_persona_stoppable w running max_steps s obs in
  exists new,
    steps fr = (results s ++ new)%list
    /\ map record_step new
       = map (fun k => step_count s + 1 + Z.of_nat k)%Z (seq 0 (List.length new))
    /\ Z.of_nat (List.length new) = (total_steps fr - step_count s + exit_entries ex)%Z.
Proof.
  unfold run_with_persona_stoppable.
  pose proof (loop_trail w running (Z.to_nat (max_steps - step_count s)) max_steps s obs)
    as H.
  destruct (loop w running _ max_steps s obs) as [s' ex].
  destruct H as (new & H1 & H2 & H3 & _). exists new. simpl. auto.
Qed.

(** X9: the step counter never decreases and never passes the budget it
    finds; a simulation whose counter already reached [max_steps] runs no
    step: its trail and counter are returned as they are, with status
    "max_steps_reached". *)
Theorem run_respects_budget (w : World) (running : Z -> bool) (max_steps : Z)
        (s : Simulation) (obs : Observation) :
  let '(fr, ex) := run_with_persona_stoppable w running max_steps s obs in
  (step_count s <= total_steps fr <= Z.max max_steps (step_count s))%Z
  /\ ((max_steps <= step_count s)%Z ->
      fr = mkFinal (results s) (step_count s) "max_steps_reached" false
      /\ ex = ExitBudget).
Proof.
  unfold run_with_persona_stoppable.
  pose proof (loop_trail w running (Z.to_nat (max_steps - step_count s)) max_steps s obs)
    as H.
  destruct (Z_le_gt_dec max_steps (step_count s)) as [Hge|Hlt].
  - replace (Z.to_nat (max_steps - step_count s)) with 0%nat in * by lia.
    simpl. split; [lia|]. intros _.
    replace (step_count s <? max_steps)%Z with false by (symmetry; apply Z.ltb_ge; lia).
    destruct s; auto.
  - destruct (loop w running _ max_steps s obs) as [s' ex].
    destruct H as (new & _ & _ & _ & Hb). simpl. split; [lia|]. intros; lia.
Qed.

Lemma loop_runs_to_budget (w : World) (running : Z -> bool) (max_steps : Z)
      (Hpolicy : forall k o, exists a, decide_action w k o = Some a
                                      /\ ActionType_eqb (action_type a) STOP = false)
      (Henv : forall k a, env_step w k a <> None) :
  forall fuel s obs, Z.of_nat fuel = (max_steps - step_count s)%Z ->
  let '(s', ex) := loop w running fuel max_steps s obs in
  (ex = ExitBudget /\ step_count s' = max_steps)
  \/ (ex = ExitHalted /\ (step_count s' < max_steps)%Z).
Proof.
  induction fuel as [|fuel IH]; intros s obs Hf; simpl.
  - left; split; [reflexivity|lia].
  - replace (step_count s <? max_steps)%Z with true by (symmetry; apply Z.ltb_lt; lia).
    destruct (running (step_count s)); [|right; split; [reflexivity|lia]].
    destruct (Hpolicy (step_count s) obs) as (a & -> & ->).
    destruct (env_step w (step_count s) a) as [o'|] eqn:He;
      [|exfalso; exact (Henv _ _ He)].
    apply IH. simpl. lia.
Qed.

(** X10: the loop is only left early by a stop action, an exception or
    [Simulation.stop()]: when the policy never raises and never stops and
    the environment never raises, the run either uses its whole budget and
    reports "max_steps_reached", or was cut short by [stop()] and reports
    "completed"; error messages on the pages never end it. *)
Theorem run_without_stop_exhausts_budget (w : World) (running : Z -> bool)
        (max_steps : Z) (s : Simulation) (obs : Observation)
        (Hpolicy : forall k o, exists a, decide_action w k o = Some a
                                        /\ ActionType_eqb (action_type a) STOP = false)
        (Henv : forall k a, env_step w k a <> None)
        (Hstart : (step_count s <= max_steps)%Z) :
  let '(fr, ex) := run_with_persona_stoppable w running max_steps s obs in
  (ex = ExitBudget /\ total_steps fr = max_steps
   /\ status fr = "max_steps_reached" /\ completed fr = false)
  \/ (ex = ExitHalted /\ (total_steps fr < max_steps)%Z
      /\ status fr = "completed" /\ completed fr = true).
Proof.
  unfold run_with_persona_stoppable.
  pose proof (loop_runs_to_budget w running max_steps Hpolicy Henv
                (Z.to_nat (max_steps - step_count s)) s obs ltac:(lia)) as H.
  destruct (loop w running _ max_steps s obs) as [s' ex].
  destruct H as [[-> Hc]|[-> Hc]]; simpl.
  - left. rewrite Hc, Z.ltb_irrefl. auto.
  - right. apply Z.ltb_lt in Hc as Hc'. rewrite Hc'. auto.
Qed.

Lemma run_without_stop_exhausts_budget_witness :
  let '(fr, ex) := run_with_persona_stoppable Fixtures.erroring_site_world
                     (fun _ => true) 4 fresh Fixtures.start_page in
  (ex = ExitBudget /\ total_steps fr = 4%Z
   /\ status fr = "max_steps_reached" /\ completed fr = false)
  \/ (ex = ExitHalted /\ (total_steps fr < 4)%Z
      /\ status fr = "completed" /\ completed fr = true).
Proof.
  apply (run_without_stop_exhausts_budget Fixtures.erroring_site_world (fun _ => true) 4
           fresh Fixtures.start_page).
  - intros k o. eexists; split; reflexivity.
  - intros k a. discriminate.
  - simpl. lia.
Defined.

Lemma loop_threaded (w : World) (running : Z -> bool) (fuel : nat) (max_steps : Z)
      (s : Simulation) (obs : Observation) :
  let '(s', ex) := loop w running fuel max_steps s obs in
  exists new, results s' = (results s ++ new)%list /\ threaded obs new.
Proof.
  revert s obs; induction fuel as [|fuel IH]; intros s obs; simpl.
  - exists []. now rewrite app_nil_r.
  - destruct (step_count s <? max_steps)%Z.
    2:{ exists []. now rewrite app_nil_r. }
    destruct (running (step_count s)).
    2:{ exists []. now rewrite app_nil_r. }
    destruct (decide_action w (step_count s) obs) as [a|].
    + destruct (ActionType_eqb (action_type a) STOP).
      * eexists; split; [reflexivity|]. simpl. auto.
      * destruct (env_step w (step_count s) a) as [o'|].
        -- specialize (IH (mkSimulation (step_count s + 1)
                             (results s ++ [StepEntry (step_count s + 1) obs a None
                                              (step_error o')])) o').
           destruct (loop w running fuel max_steps _ o') as [s' ex].
           destruct IH as (new & Hres & Hthr); simpl in *.
           exists (StepEntry (step_count s + 1) obs a None (step_error o') :: new).
           split; [rewrite Hres; now rewrite <- app_assoc|].
           simpl. split; [reflexivity|].
           destruct new as [|r new]; [now left|right]. now exists o'.
        -- eexists; split; [reflexivity|]. reflexivity.
    + eexists; split; [reflexivity|]. reflexivity.
Qed.

(** X22: the entries a run appends record the observations in the order
    the loop saw them: the first records the observation the run was
    started with, each entry's "error" is the error message of the
    observation the next entry records, and an error entry ends the
    trail. *)
Theorem run_threads_observations (w : World) (running : Z -> bool) (max_steps : Z)
        (s : Simulation) (obs : Observation) :
  let '(fr, ex) := run_with_persona_stoppable w running max_steps s obs in
  exists new, steps fr = (results s ++ new)%list /\ threaded obs new.
Proof.
  unfold run_with_persona_stoppable.
  pose proof (loop_threaded w running (Z.to_nat (max_steps - step_count s)) max_steps s obs)
    as H.
  destruct (loop w running _ max_steps s obs) as [s' ex]. exact H.
Qed.

End ExtraSim.

(** * Further properties of [plan] *)

Module ExtraPlan.
Import Json Planning.

Lemma obj_lookup_present (kvs : list (string * json)) (k : string) :
  existsb (fun kv => String.eqb (fst kv) k) kvs = true ->
  exists v, obj_lookup kvs k = Some v.
Proof.
  intros H. apply existsb_exists in H as (kv & Hin & Hk).
  unfold obj_lookup.
  destruct (find (fun kv => String.eqb (fst kv) k) (rev kvs)) as [[k' v]|] eqn:Hf;
    [now exists v|].
  exfalso. apply in_rev in Hin.
  pose proof (find_none _ _ Hf kv Hin) as Hn. congruence.
Qed.

(** An attempt before the last one that does not answer with a dict
    holding the three keys moves on to the next attempt with the plan
    unchanged: its exception, if any, is only logged. *)
Lemma plan_skip_attempt (response : nat -> option json) (rem a : nat) (st : AgentPlan) :
  (a < 2)%nat ->
  (forall kvs, response a = Some (JObj kvs) ->
     all_keys (JObj kvs) ["plan"; "rationale"; "next_step"] <> Some true) ->
  plan_loop response (S rem) a st = plan_loop response rem (S a) st.
Proof.
  intros Ha Hnot.
  assert (Hon : on_exception a st = st)
    by (unfold on_exception; replace (Nat.eqb a (max_retries - 1)) with false;
        [reflexivity|symmetry; apply Nat.eqb_neq; unfold max_retries; lia]).
  cbn [plan_loop]. destruct (response a) as [v|] eqn:Hr; [|now rewrite Hon].
  destruct (all_keys v ["plan"; "rationale"; "next_step"]) as [[|]|] eqn:Hk;
    [|reflexivity|now rewrite Hon].
  destruct v; simpl; try now rewrite Hon.
  exfalso. exact (Hnot kvs eq_refl Hk).
Qed.

(** X11: the first attempt (of the three) that answers with a dict
    holding "plan", "rationale" and "next_step" sets the three plan fields
    to the dict's values; earlier attempts that did not leave no trace. *)
Theorem first_complete_answer_wins (response : nat -> option json) (st : AgentPlan)
        (k : nat) (kvs : list (string * json)) (Hk : (k < 3)%nat)
        (Hearlier : forall a, (a < k)%nat -> forall kvs',
           response a = Some (JObj kvs') ->
           all_keys (JObj kvs') ["plan"; "rationale"; "next_step"] <> Some true)
        (Hanswer : response k = Some (JObj kvs))
        (Hcomplete : all_keys (JObj kvs) ["plan"; "rationale"; "next_step"] = Some true) :
  plan_loop response max_retries 0 st
  = mkPlan (obj_lookup kvs "plan") (obj_lookup kvs "rationale")
           (obj_lookup kvs "next_step").
Proof.
  simpl in Hcomplete.
  destruct (existsb _ kvs) eqn:H1 in Hcomplete; [|discriminate].
  destruct (existsb _ kvs) eqn:H2 in Hcomplete; [|discriminate].
  destruct (existsb _ kvs) eqn:H3 in Hcomplete; [|discriminate].
  destruct (obj_lookup_present _ _ H1) as [p Hp].
  destruct (obj_lookup_present _ _ H2) as [r Hr].
  destruct (obj_lookup_present _ _ H3) as [ns Hns].
  assert (Hstep : forall rem, plan_loop response (S rem) k st
                              = mkPlan (Some p) (Some r) (Some ns)).
  { intros rem. simpl. rewrite Hanswer. simpl. rewrite H1, H2, H3.
    unfold get. now rewrite Hp, Hr, Hns. }
  rewrite Hp, Hr, Hns. unfold max_retries.
  destruct k as [|[|[|k]]]; try lia.
  - apply Hstep.
  - rewrite plan_skip_attempt by first [lia | intros kvs' Hr'; refine (Hearlier _ _ kvs' Hr'); lia].
    apply Hstep.
  - rewrite plan_skip_attempt by first [lia | intros kvs' Hr'; refine (Hearlier _ _ kvs' Hr'); lia].
    rewrite plan_skip_attempt by first [lia | intros kvs' Hr'; refine (Hearlier _ _ kvs' Hr'); lia].
    apply Hstep.
Qed.

Lemma first_complete_answer_wins_witness :
  plan_loop (fun a => match a with
                      | O => None
                      | _ => Some (JObj [("plan", JStr "p"); ("rationale", JStr "r");
                                         ("next_step", JStr "n")])
                      end) max_retries 0 initial_plan
  = mkPlan (Some (JStr "p")) (Some (JStr "r")) (Some (JStr "n")).
Proof.
  apply (first_complete_answer_wins _ initial_plan 1
           [("plan", JStr "p"); ("rationale", JStr "r"); ("next_step", JStr "n")]).
  - lia.
  - intros a Ha kvs' H. replace a with 0%nat in H by lia. discriminate.
  - reflexivity.
  - reflexivity.
Defined.

(** X12: when the first two attempts give no complete dict, the last
    attempt decides: if it raises, the fallback plan is installed; if it
    answers with a value missing one of the three keys, the plan fields are
    left as they were, whatever the earlier attempts did. *)
Theorem last_attempt_decides (response : nat -> option json) (st : AgentPlan)
        (Hearlier : forall a, (a < 2)%nat -> forall kvs',
           response a = Some (JObj kvs') ->
           all_keys (JObj kvs') ["plan"; "rationale"; "next_step"] <> Some true) :
  (response 2%nat = None -> plan_loop response max_retries 0 st = fallback_plan)
  /\ (forall v, response 2%nat = Some v ->
        all_keys v ["plan"; "rationale"; "next_step"] = Some false ->
        plan_loop response max_retries 0 st = st).
Proof.
  unfold max_retries.
  rewrite plan_skip_attempt by first [lia | intros kvs' Hr'; refine (Hearlier _ _ kvs' Hr'); lia].
  rewrite plan_skip_attempt by first [lia | intros kvs' Hr'; refine (Hearlier _ _ kvs' Hr'); lia].
  split.
  - intros H2. cbn [plan_loop]. now rewrite H2.
  - intros v H2 Hk. cbn [plan_loop]. now rewrite H2, Hk.
Qed.

Lemma last_attempt_decides_witness :
  let response := fun a => match a with
                           | O => Some Fixtures.incomplete_response
                           | _ => None
                           end in
  (response 2%nat = None -> plan_loop response max_retries 0 initial_plan = fallback_plan)
  /\ (forall v, response 2%nat = Some v ->
        all_keys v ["plan"; "rationale"; "next_step"] = Some false ->
        plan_loop response max_retries 0 initial_plan = initial_plan).
Proof.
  intros response. apply last_attempt_decides.
  intros a Ha kvs' H. destruct a as [|a].
  - injection H as <-. vm_compute. discriminate.
  - discriminate.
Defined.

End ExtraPlan.

(** * Further properties of [act] *)

Module ExtraAct.
Import Json Acting.

Lemma lower_ascii_idem (c : ascii) : lower_ascii (lower_ascii c) = lower_ascii c.
Proof. destruct c as [[] [] [] [] [] [] [] []]; reflexivity. Qed.

Lemma lower_idem (s : string) : lower (lower s) = lower s.
Proof. induction s as [|c s IH]; simpl; [reflexivity|now rewrite lower_ascii_idem, IH]. Qed.






(** X15: unless the response is a dict whose "actions" entry is a
    non-empty list, [act] returns no action: a missing entry defaults to
    the empty list, and a string or dict entry is iterated into strings,
    on which [.get] raises. *)
Theorem actions_need_a_list (v : json)
        (Hnolist : forall kvs l, v = JObj kvs -> obj_lookup kvs "actions" = Some (JArr l) ->
                   l = []) :
  actions_of_response (Some v) = [].
Proof.
  destruct v as [| | | | |kvs]; try reflexivity.
  unfold actions_of_response, get.
  destruct (obj_lookup kvs "actions") as [a|] eqn:Ha; [|reflexivity].
  destruct a as [| | |s|l|kvs']; try reflexivity.
  - simpl. destruct (list_ascii_of_string s); reflexivity.
  - now rewrite (Hnolist kvs l eq_refl Ha).
  - simpl. destruct kvs'; reflexivity.
Qed.

Lemma actions_need_a_list_witness :
  actions_of_response (Some (JObj [("actions", JStr "click")])) = [].
Proof.
  apply actions_need_a_list.
  intros kvs l H Hl. injection H as <-. discriminate.
Defined.

End ExtraAct.

(** * Further properties of the relevance classifiers *)

Module ExtraClassifiers.
Import Json Keyword Composite CompositeFacts Classifiers ExtraAct.

Lemma Qle_bool_compat (t x y : Q) : x == y -> Qle_bool t x = Qle_bool t y.
Proof.
  intros H. apply eq_true_iff_eq. rewrite !Qle_bool_iff. now rewrite H.
Qed.

(** X16: the keyword classifier ignores letter case, in the page and in
    the intent. *)
Theorem keyword_case_insensitive (threshold : Q) (page_content intent : string) :
  keyword_is_relevant threshold (lower page_content) (lower intent)
  = keyword_is_relevant threshold page_content intent.
Proof. unfold keyword_is_relevant. now rewrite !lower_idem. Qed.

(** X17: when every word of the intent occurs in the page (and the intent
    has a word), the score is 1: the page is relevant iff the threshold is
    at most 1. *)
Theorem keyword_all_words_found (threshold : Q) (page_content intent : string)
        (Hwords : split_words (lower intent) <> [])
        (Hall : forall w, In w (split_words (lower intent)) ->
                occurs_in w (lower page_content) = true) :
  keyword_is_relevant threshold page_content intent = Qle_bool threshold 1.
Proof.
  unfold keyword_is_relevant.
  destruct (split_words (lower intent)) as [|w0 l] eqn:Hs; [contradiction|].
  set (ws := nodup string_dec (w0 :: l)).
  assert (Hf : filter (fun w => occurs_in w (lower page_content)) ws = ws).
  { apply forallb_filter_id, forallb_forall. intros w Hw.
    apply Hall. now apply nodup_In in Hw. }
  rewrite Hf.
  assert (Hin : In w0 ws) by (apply nodup_In; now left).
  destruct ws as [|w ws'] eqn:Hws.
  - destruct Hin.
  - apply Qle_bool_compat. unfold Qdiv. apply Qmult_inv_r.
    unfold Qeq; simpl; lia.
Qed.

Lemma keyword_all_words_found_witness :
  keyword_is_relevant default_threshold "Red kettle for sale" "red KETTLE"
  = Qle_bool default_threshold 1.
Proof.
  apply keyword_all_words_found.
  - discriminate.
  - intros w Hw. vm_compute in Hw. destruct Hw as [<-|[<-|[]]]; reflexivity.
Defined.

(** X18: when no word of the intent occurs in the page (in particular
    when the intent is empty or only whitespace), the score is 0: the page
    is relevant iff the threshold is at most 0, so never at the default
    threshold 0.5. *)
Theorem keyword_no_word_found (threshold : Q) (page_content intent : string)
        (Hnone : forall w, In w (split_words (lower intent)) ->
                 occurs_in w (lower page_content) = false) :
  keyword_is_relevant threshold page_content intent = Qle_bool threshold 0.
Proof.
  unfold keyword_is_relevant.
  set (ws := nodup string_dec (split_words (lower intent))).
  assert (Hf : filter (fun w => occurs_in w (lower page_content)) ws = []).
  { destruct (filter _ ws) as [|x l] eqn:E; [reflexivity|exfalso].
    assert (Hx : In x (filter (fun w => occurs_in w (lower page_content)) ws))
      by (rewrite E; now left).
    apply filter_In in Hx as [Hx Hocc]. apply nodup_In in Hx.
    rewrite (Hnone x Hx) in Hocc. discriminate. }
  rewrite Hf. destruct ws; [reflexivity|].
  apply Qle_bool_compat. unfold Qdiv. apply Qmult_0_l.
Qed.

Lemma keyword_no_word_found_witness :
  keyword_is_relevant default_threshold "Red kettle for sale" " 	"
  = Qle_bool default_threshold 0.
Proof.
  apply keyword_no_word_found.
  intros w Hw. vm_compute in Hw. destruct Hw.
Defined.

Lemma collect_None (outcomes : list (option bool)) :
  In None outcomes -> collect outcomes = None.
Proof.
  induction outcomes as [|o os IH]; intros H; [destruct H|].
  destruct H as [H|H]; [now subst o|]. simpl.
  destruct o as [b|]; [now rewrite IH|reflexivity].
Qed.

(** X19: a member classifier that raises makes the composite answer
    [False], whatever the voting strategy and the other members' votes. *)
Theorem composite_member_exception_is_false (voting_strategy : string)
        (outcomes : list (option bool)) (Hraised : In None outcomes) :
  is_relevant voting_strategy outcomes = false.
Proof. unfold is_relevant. now rewrite collect_None. Qed.

Lemma composite_member_exception_is_false_witness :
  is_relevant "any" [Some true; None] = false.
Proof. apply composite_member_exception_is_false. right; now left. Defined.

(** X20: on a non-empty list of votes the strategies are ordered by
    strictness: "unanimous" implies "majority", which implies "any". *)
Theorem composite_strategies_ordered (votes : list bool) (Hne : votes <> []) :
  (is_relevant "unanimous" (map Some votes) = true ->
   is_relevant "majority" (map Some votes) = true)
  /\ (is_relevant "majority" (map Some votes) = true ->
      is_relevant "any" (map Some votes) = true).
Proof.
  unfold is_relevant. rewrite collect_map_Some. unfold vote. simpl.
  rewrite majority_iff, py_all_iff, py_any_iff. split.
  - intros Hall. rewrite (forallb_filter_id (fun b => b) votes).
    + destruct votes; [contradiction|simpl; lia].
    + apply forallb_forall. intros b Hb. now apply Hall.
  - intros Hmaj. destruct (filter (fun b => b) votes) as [|b l] eqn:Hf.
    + simpl in Hmaj. lia.
    + assert (Hb : In b (filter (fun b => b) votes)) by (rewrite Hf; now left).
      apply filter_In in Hb as [Hb Ht]. now subst b.
Qed.

Lemma composite_strategies_ordered_witness :
  (is_relevant "unanimous" (map Some [true; false]) = true ->
   is_relevant "majority" (map Some [true; false]) = true)
  /\ (is_relevant "majority" (map Some [true; false]) = true ->
      is_relevant "any" (map Some [true; false]) = true).
Proof. apply composite_strategies_ordered. discriminate. Defined.

Lemma vote_constant (voting_strategy : string) (b : bool) (k : nat) :
  (0 < k)%nat -> vote voting_strategy (repeat b k) = b.
Proof.
  intros Hk.
  assert (Hmaj : majority (repeat b k) = b).
  { destruct b.
    - apply majority_iff. rewrite (forallb_filter_id (fun b => b) (repeat true k)).
      + rewrite repeat_length. lia.
      + apply forallb_forall. intros x Hx. now apply repeat_spec in Hx.
    - apply Bool.not_true_iff_false. rewrite majority_iff.
      replace (filter (fun b => b) (repeat false k)) with (@nil bool); [simpl; lia|].
      clear Hk. induction k; simpl; auto. }
  assert (Hall : py_all (repeat b k) = b).
  { destruct k as [|k]; [lia|]. destruct b; [|reflexivity].
    apply py_all_iff. intros x Hx. now apply repeat_spec in Hx. }
  assert (Hany : py_any (repeat b k) = b).
  { destruct k as [|k]; [lia|]. destruct b; [reflexivity|].
    apply Bool.not_true_iff_false. rewrite py_any_iff. intros Hx.
    now apply repeat_spec in Hx. }
  unfold vote.
  destruct (String.eqb voting_strategy "majority"); [exact Hmaj|].
  destruct (String.eqb voting_strategy "unanimous"); [exact Hall|].
  destruct (String.eqb voting_strategy "any"); [exact Hany|exact Hmaj].
Qed.

(** X21: [TrecQrelsClassifier] and [LLMRelevanceClassifier] both answer as
    the keyword classifier at its default threshold, so a non-empty
    composite of such members (and default keyword members) answers as
    that keyword classifier, under every voting strategy. *)
Theorem composite_of_keyword_fallbacks (voting_strategy : string) (cs : list Member)
        (page_content intent : string) (Hne : cs <> [])
        (Hdefault : forall c, In c cs ->
                    c = TrecQrelsMember \/ c = LLMMember
                    \/ c = KeywordMember default_threshold) :
  is_relevant voting_strategy (member_outcomes cs page_content intent)
  = keyword_is_relevant default_threshold page_content intent.
Proof.
  set (b := keyword_is_relevant default_threshold page_content intent).
  assert (Houts : member_outcomes cs page_content intent
                  = map Some (repeat b (List.length cs))).
  { unfold member_outcomes. clear Hne. induction cs as [|c cs IH]; [reflexivity|].
    simpl. f_equal.
    - destruct (Hdefault c (or_introl eq_refl)) as [-> | [-> | ->]]; reflexivity.
    - apply IH. intros c' Hc'. apply Hdefault. now right. }
  rewrite Houts. unfold is_relevant. rewrite collect_map_Some.
  apply vote_constant. destruct cs; [contradiction|simpl; lia].
Qed.

Lemma composite_of_keyword_fallbacks_witness :
  is_relevant "unanimous"
    (member_outcomes [TrecQrelsMember; LLMMember] "Red kettle for sale" "blue kettle")
  = keyword_is_relevant default_threshold "Red kettle for sale" "blue kettle".
Proof.
  apply composite_of_keyword_fallbacks.
  - discriminate.
  - intros c [<-|[<-|[]]]; auto.
Defined.

End ExtraClassifiers.
